(** * describegraph_parser: the JSON graph to CSV projection

    A shallow embedding of [describegraph_parser.py].  The script loads one
    JSON document (the output of [lncli describegraph]) and writes three CSV
    tables: nodes, channels and directed edge policies.

    - Python values decoded by [json.load] are the inductive [pyval].  A
      Python string is kept as its UTF-8 encoding, a [string] of bytes; a
      string that UTF-8 cannot encode (a lone surrogate) has no counterpart.
    - The functions of the script run in a state-and-exception monad [M]
      over a [world]: a flat file system and the log of the effects
      performed so far (lines printed, directories created, files opened).
      An exception that the script does not catch ends the run; the world
      keeps what was written until then.
    - A CSV file is kept as the list of rows handed to [csv.writer]; the
      quoting that [csv] applies when it renders a row is the library's and
      is not modelled. *)

From Stdlib Require Import Floats.SpecFloat Ascii String.
From stdpp Require Import gmap strings list pretty.

Set Warnings "-register-all".

(** ** Python values *)

(** What [json.load] can return: [None], booleans, integers, floats, strings,
    lists, and dicts with string keys.  A dict keeps its items in insertion
    order; [json.load] never yields a repeated key. *)
Inductive pyval : Type :=
| PNone
| PBool (b : bool)
| PInt (z : Z)
| PFloat (f : spec_float)
| PStr (s : string)
| PList (l : list pyval)
| PDict (d : list (string * pyval)).

Abbreviation pydict := (list (string * pyval)).
Abbreviation row := (list pyval).
Abbreviation table := (list (list pyval)).

(** [bool(v)], the test behind [if v:] and [not v]. *)
Definition truthy (v : pyval) : bool :=
  match v with
  | PNone => false
  | PBool b => b
  | PInt z => negb (Z.eqb z 0)
  | PFloat (S754_zero _) => false
  | PFloat _ => true
  | PStr s => negb (String.eqb s "")
  | PList l => match l with [] => false | _ => true end
  | PDict d => match d with [] => false | _ => true end
  end.

(** The binding of key [k] in a dict. *)
Fixpoint assoc (k : string) (d : pydict) : option pyval :=
  match d with
  | [] => None
  | (k', v) :: d' => if String.eqb k k' then Some v else assoc k d'
  end.

(** [d.get(k, dflt)] on a dict. *)
Definition dict_get (d : pydict) (k : string) (dflt : pyval) : pyval :=
  match assoc k d with
  | Some v => v
  | None => dflt
  end.

(** ** Exceptions, effects and the world *)

Inductive exn : Type :=
| FileNotFoundError (path : string)
| IsADirectoryError (path : string)
| JSONDecodeError (msg : string)
| UnicodeDecodeError
| AttributeError (v : pyval)      (* [v] has no attribute [get] *)
| TypeError (v : pyval).          (* [v] has no [len()] / is not iterable *)

(** What a path of the file system holds.  A file that the script may read
    is kept as what [json.load] makes of it: the decoded document, the
    message of the [JSONDecodeError] it raises on text that is not JSON, or
    the fact that the bytes are not UTF-8 text at all.  A file written
    through [csv.writer] is kept as its rows. *)
Inductive node : Type :=
| Dir
| JsonFile (doc : pyval)
| BadFile (msg : string)
| CsvFile (t : table)
| BinaryFile.

Inductive event : Type :=
| EvPrint (line : string)
| EvMakedirs (path : string)
| EvOpenRead (path : string)
| EvOpenWrite (path : string).

Record world : Type := World {
  w_fs : gmap string node;
  w_log : list event
}.

Inductive res (A : Type) : Type :=
| Ret (a : A)
| Raise (e : exn).
Arguments Ret {A} a.
Arguments Raise {A} e.

(** A computation: it runs in a world, returns or raises, and leaves a world
    behind either way. *)
Definition M (A : Type) : Type := world -> res A * world.

Definition ret {A} (a : A) : M A := fun w => (Ret a, w).

Definition bind {A B} (m : M A) (k : A -> M B) : M B :=
  fun w =>
    match m w with
    | (Ret a, w') => k a w'
    | (Raise e, w') => (Raise e, w')
    end.

Definition raise {A} (e : exn) : M A := fun w => (Raise e, w).

(** [try: m except e: h e] *)
Definition try_except {A} (m : M A) (h : exn -> M A) : M A :=
  fun w =>
    match m w with
    | (Ret a, w') => (Ret a, w')
    | (Raise e, w') => h e w'
    end.

Declare Scope py_scope.
Delimit Scope py_scope with py.
Notation "x <- m ;; k" := (bind m (fun x => k))
  (at level 100, m at next level, right associativity,
   format "'[v' x  <-  m  ;; '/' k ']'") : py_scope.
Notation "m ;;; k" := (bind m (fun _ => k))
  (at level 100, right associativity,
   format "'[v' m  ;;; '/' k ']'") : py_scope.
Local Open Scope py_scope.

Definition log_event (e : event) (w : world) : world :=
  World (w_fs w) (w_log w ++ [e]).

(** [print(line)] *)
Definition print (line : string) : M unit :=
  fun w => (Ret tt, log_event (EvPrint line) w).

(** [os.path.exists(p)]; the empty path never exists. *)
Definition path_exists (p : string) : M bool :=
  fun w =>
    (Ret (if String.eqb p "" then false
          else match w_fs w !! p with Some _ => true | None => false end),
     w).

(** [os.makedirs(p)], which refuses the empty path.  The file system is
    flat: the intermediate directories and the other refusals of the
    operating system (permissions, a file in the way) are outside the
    model. *)
Definition makedirs (p : string) : M unit :=
  fun w =>
    if String.eqb p "" then (Raise (FileNotFoundError p), w)
    else (Ret tt, World (<[p := Dir]> (w_fs w)) (w_log w ++ [EvMakedirs p])).

(** [with open(p, 'r', encoding='utf-8') as f: return json.load(f)].  Every
    table the script writes begins with the header cell [id], which is not
    JSON text. *)
Definition open_json (p : string) : M pyval :=
  fun w =>
    let w' := log_event (EvOpenRead p) w in
    match w_fs w !! p with
    | None => (Raise (FileNotFoundError p), w')
    | Some Dir => (Raise (IsADirectoryError p), w')
    | Some (JsonFile doc) => (Ret doc, w')
    | Some (BadFile msg) => (Raise (JSONDecodeError msg), w')
    | Some (CsvFile _) =>
        (Raise (JSONDecodeError "Expecting value: line 1 column 1 (char 0)"), w')
    | Some BinaryFile => (Raise UnicodeDecodeError, w')
    end.

(** [open(p, 'w', newline='', encoding='utf-8')] followed by
    [csv.writer(csvfile)]: the file is created or truncated.  As for
    [makedirs], the refusals of the operating system (a directory at [p], a
    missing directory or a regular file above it) are outside the model. *)
Definition open_csv (p : string) : M unit :=
  fun w => (Ret tt, World (<[p := CsvFile []]> (w_fs w)) (w_log w ++ [EvOpenWrite p])).

(** [writer.writerow(r)] on the writer of the file opened at [p]. *)
Definition writerow (p : string) (r : row) : M unit :=
  fun w =>
    match w_fs w !! p with
    | Some (CsvFile t) => (Ret tt, World (<[p := CsvFile (t ++ [r])]> (w_fs w)) (w_log w))
    | _ => (Ret tt, w)
    end.

(** ** Python operations on decoded values *)

(** [v.get(k, dflt)]: only dicts have the method. *)
Definition py_get (v : pyval) (k : string) (dflt : pyval) : M pyval :=
  match v with
  | PDict d => ret (dict_get d k dflt)
  | _ => raise (AttributeError v)
  end.

(** The bytes [10xxxxxx], which continue a character in UTF-8. *)
Definition is_continuation (c : ascii) : bool :=
  match c with
  | Ascii _ _ _ _ _ _ false true => true
  | _ => false
  end.

(** The characters of a string: each lead byte with the continuation bytes
    that follow it. *)
Fixpoint chars (s : string) : list pyval :=
  match s with
  | EmptyString => []
  | String c s' =>
      match s' with
      | String c' _ =>
          if is_continuation c' then
            match chars s' with
            | PStr h :: t => PStr (String c h) :: t
            | _ => [PStr (String c EmptyString)]
            end
          else PStr (String c EmptyString) :: chars s'
      | EmptyString => [PStr (String c EmptyString)]
      end
  end.

(** [len(v)]; the length of a string is the number of its characters. *)
Definition py_len (v : pyval) : M nat :=
  match v with
  | PList l => ret (length l)
  | PDict d => ret (length d)
  | PStr s => ret (length (chars s))
  | _ => raise (TypeError v)
  end.

(** The items [for x in v] runs through: the elements of a list, the keys of
    a dict, the characters of a string. *)
Definition py_iter (v : pyval) : M (list pyval) :=
  match v with
  | PList l => ret l
  | PDict d => ret (map (fun kv => PStr (fst kv)) d)
  | PStr s => ret (chars s)
  | _ => raise (TypeError v)
  end.

Fixpoint for_each (l : list pyval) (body : pyval -> M unit) : M unit :=
  match l with
  | [] => ret tt
  | x :: l' => body x ;;; for_each l' body
  end.

(** [for x in v: body x] *)
Definition py_for (v : pyval) (body : pyval -> M unit) : M unit :=
  l <- py_iter v ;; for_each l body.

(** [str(n)] for a length. *)
Definition str_nat (n : nat) : string := pretty n.

(** [os.path.join(a, b)] (POSIX) for a relative [b]. *)
Fixpoint ends_with_sep (a : string) : bool :=
  match a with
  | EmptyString => false
  | String c EmptyString => Ascii.eqb c "/"%char
  | String _ a' => ends_with_sep a'
  end.

Definition path_join (a b : string) : string :=
  if String.eqb a "" || ends_with_sep a then a +:+ b else a +:+ "/" +:+ b.

(** The command line, as [argparse] hands it over. *)
Record args : Type := Args {
  json_file : string;
  output : string
}.

(** The header rows of the three tables. *)
Definition nodes_header : row := [PStr "id"].

Definition channels_header : row :=
  [PStr "id"; PStr "edge1_id"; PStr "edge2_id"; PStr "node1_id"; PStr "node2_id";
   PStr "capacity(millisat)"].

Definition edges_header : row :=
  [PStr "id"; PStr "channel_id"; PStr "counter_edge_id"; PStr "from_node_id";
   PStr "to_node_id"; PStr "balance(millisat)"; PStr "fee_base(millisat)";
   PStr "fee_proportional"; PStr "min_htlc(millisat)"; PStr "timelock"].

(** The line [main] prints when it gives up on the loaded data. *)
Definition load_failed_line : string := "Error: JSONデータの読み込みに失敗しました".

(** ** Sample documents *)

(** A stand-in for [repr]; none of the samples reaches it. *)
Definition sample_repr (v : pyval) : string := "<object>".

Definition sample_policy : pydict :=
  [("fee_base_msat", PStr "1"); ("fee_rate_milli_msat", PStr "10");
   ("min_htlc", PStr "1000"); ("time_lock_delta", PStr "40")].

(** A channel that only [node1] has announced a policy for. *)
Definition channel_one_policy : pydict :=
  [("channel_id", PStr "C1"); ("node1_pub", PStr "A"); ("node2_pub", PStr "B");
   ("capacity", PStr "500"); ("node1_policy", PDict sample_policy)].

(** A channel with both policies; the second one lacks two fields. *)
Definition channel_two_policies : pydict :=
  [("channel_id", PStr "C2"); ("node1_pub", PStr "A"); ("node2_pub", PStr "B");
   ("node1_policy", PDict sample_policy);
   ("node2_policy", PDict [("fee_base_msat", PStr "7"); ("min_htlc", PStr "1")])].

(** A channel whose [node1_policy] is [null], as [lncli] prints an unknown
    policy, and whose [node2_policy] is an object. *)
Definition channel_null_policy : pydict :=
  [("channel_id", PStr "C3"); ("node1_pub", PStr "A"); ("node2_pub", PStr "B");
   ("node1_policy", PNone); ("node2_policy", PDict sample_policy)].

(** A channel whose [node1_policy] is present and is the empty object. *)
Definition channel_empty_policy : pydict :=
  [("channel_id", PStr "C4"); ("node1_pub", PStr "A"); ("node2_pub", PStr "B");
   ("node1_policy", PDict [])].

(** A channel without policies. *)
Definition channel_no_policy : pydict :=
  [("channel_id", PStr "C5"); ("node1_pub", PStr "A"); ("node2_pub", PStr "B")].

(** The document of the end-to-end example. *)
Definition sample_document : pyval :=
  PDict [("nodes", PList [PDict [("pub_key", PStr "A")]]);
         ("edges", PList [PDict channel_one_policy])].

Definition empty_world : world := World ∅ [].

Definition sample_args : args := Args "graph.json" "out".

(** The object inside [sample_document], and a world that holds it. *)
Definition sample_graph : pydict :=
  [("nodes", PList [PDict [("pub_key", PStr "A")]]);
   ("edges", PList [PDict channel_one_policy])].

Definition sample_world : world :=
  World {[ "graph.json" := JsonFile (PDict sample_graph) ]} [].

(** A channel whose [node2_policy] is a string. *)
Definition channel_string_policy : pydict :=
  [("channel_id", PStr "C7"); ("node1_pub", PStr "A"); ("node2_pub", PStr "B");
   ("node1_policy", PDict sample_policy); ("node2_policy", PStr "disabled")].

(** A channel whose [node1_policy] is a string. *)
Definition channel_text_policy : pydict :=
  [("channel_id", PStr "C8"); ("node1_pub", PStr "A"); ("node2_pub", PStr "B");
   ("node1_policy", PStr "disabled")].


Section Parser.

(** [repr] of a float, a list or a dict is the interpreter's; the script
    reaches it only when a [channel_id] is none of a string, [None], a
    boolean or an integer. *)
Variable py_repr : pyval -> string.

(** [str(v)], which is what an f-string field [{v}] expands to. *)
Definition py_str (v : pyval) : string :=
  match v with
  | PStr s => s
  | PNone => "None"
  | PBool true => "True"
  | PBool false => "False"
  | PInt z => pretty z
  | _ => py_repr v
  end.

(** ** The script *)

Definition load_json_data (json_file_path : string) : M pyval :=
  try_except (open_json json_file_path)
    (fun e =>
       match e with
       | FileNotFoundError _ =>
           print ("Error: JSONファイル '" +:+ json_file_path +:+ "' が見つかりません") ;;;
           ret (PDict [])
       | JSONDecodeError msg =>
           print ("Error: JSONファイルの読み込みエラー: " +:+ msg) ;;;
           ret (PDict [])
       | _ => raise e
       end).

Definition generate_nodes_csv (nodes_data : pyval) (output_file : string) : M unit :=
  open_csv output_file ;;;
  writerow output_file nodes_header ;;;
  py_for nodes_data (fun node =>
    pub_key <- py_get node "pub_key" (PStr "") ;;
    writerow output_file [pub_key]) ;;;
  n <- py_len nodes_data ;;
  print ("Generated " +:+ output_file +:+ " with " +:+ str_nat n +:+ " nodes").

Definition generate_channels_csv (edges_data : pyval) (output_file : string) : M unit :=
  open_csv output_file ;;;
  writerow output_file channels_header ;;;
  py_for edges_data (fun edge =>
    channel_id <- py_get edge "channel_id" (PStr "") ;;
    node1_pub <- py_get edge "node1_pub" (PStr "") ;;
    node2_pub <- py_get edge "node2_pub" (PStr "") ;;
    capacity <- py_get edge "capacity" (PStr "0") ;;
    let edge1_id := PStr (py_str channel_id +:+ "_1") in
    let edge2_id := PStr (py_str channel_id +:+ "_2") in
    writerow output_file [channel_id; edge1_id; edge2_id; node1_pub; node2_pub; capacity]) ;;;
  n <- py_len edges_data ;;
  print ("Generated " +:+ output_file +:+ " with " +:+ str_nat n +:+ " channels").

(** The row of one direction: the cells are evaluated in order, which
    raises when the policy has no [get], before [writer.writerow] runs. *)
Definition write_policy_row (output_file : string)
    (edge_id channel_id counter_id from_node to_node policy : pyval) : M unit :=
  fee_base <- py_get policy "fee_base_msat" (PStr "0") ;;
  fee_rate <- py_get policy "fee_rate_milli_msat" (PStr "0") ;;
  min_htlc <- py_get policy "min_htlc" (PStr "0") ;;
  time_lock <- py_get policy "time_lock_delta" (PStr "0") ;;
  writerow output_file
    [edge_id; channel_id; counter_id; from_node; to_node; PStr "";
     fee_base; fee_rate; min_htlc; time_lock].

(** The body of the loop of [generate_edges_csv]. *)
Definition edge_body (output_file : string) (edge : pyval) : M unit :=
  channel_id <- py_get edge "channel_id" (PStr "") ;;
  node1_pub <- py_get edge "node1_pub" (PStr "") ;;
  node2_pub <- py_get edge "node2_pub" (PStr "") ;;
  let edge1_id := PStr (py_str channel_id +:+ "_1") in
  let edge2_id := PStr (py_str channel_id +:+ "_2") in
  node1_policy <- py_get edge "node1_policy" (PDict []) ;;
  (if truthy node1_policy
   then write_policy_row output_file edge1_id channel_id edge2_id node1_pub node2_pub
          node1_policy
   else ret tt) ;;;
  node2_policy <- py_get edge "node2_policy" (PDict []) ;;
  (if truthy node2_policy
   then write_policy_row output_file edge2_id channel_id edge1_id node2_pub node1_pub
          node2_policy
   else ret tt).

Definition generate_edges_csv (edges_data : pyval) (output_file : string) : M unit :=
  open_csv output_file ;;;
  writerow output_file edges_header ;;;
  py_for edges_data (edge_body output_file) ;;;
  n <- py_len edges_data ;;
  print ("Generated " +:+ output_file +:+ " with " +:+ str_nat (n * 2) +:+ " edge policies").

Definition main (a : args) : M unit :=
  present <- path_exists (output a) ;;
  (if negb present
   then makedirs (output a) ;;;
        print ("出力ディレクトリを作成しました: " +:+ output a)
   else ret tt) ;;;
  data <- load_json_data (json_file a) ;;
  if negb (truthy data)
  then print load_failed_line
  else
    nodes_data <- py_get data "nodes" (PList []) ;;
    edges_data <- py_get data "edges" (PList []) ;;
    n <- py_len nodes_data ;;
    m <- py_len edges_data ;;
    print ("読み込み完了: " +:+ str_nat n +:+ " nodes, " +:+ str_nat m +:+ " edges") ;;;
    let nodes_output := path_join (output a) "nodes_ln.csv" in
    let channels_output := path_join (output a) "channels_ln.csv" in
    let edges_output := path_join (output a) "edges_ln.csv" in
    generate_nodes_csv nodes_data nodes_output ;;;
    generate_channels_csv edges_data channels_output ;;;
    generate_edges_csv edges_data edges_output ;;;
    print "All CSV files generated successfully!".

(** The exit status of [python describegraph_parser.py ...]: 0 when [main]
    returns, 1 when an exception reaches the top level. *)
Definition exit_status (r : res unit) : Z :=
  match r with
  | Ret _ => 0
  | Raise _ => 1
  end.

(** ** Reading a run *)

(** The table at [p], when [p] holds a CSV file. *)
Definition csv_at (w : world) (p : string) : option table :=
  match w_fs w !! p with
  | Some (CsvFile t) => Some t
  | _ => None
  end.

(** The world after the rows [rs] went to the CSV file open at [p]. *)
Definition add_rows (p : string) (rs : table) (w : world) : world :=
  match w_fs w !! p with
  | Some (CsvFile t) => World (<[p := CsvFile (t ++ rs)]> (w_fs w)) (w_log w)
  | _ => w
  end.

(** What a stretch of code does to the file it writes: the rows it adds and
    the exception that stops it, if one does. *)
Definition outcome (o : option exn) : res unit :=
  match o with
  | None => Ret tt
  | Some e => Raise e
  end.

Definition writes (p : string) (m : M unit) (rs : table) (o : option exn) : Prop :=
  forall w, m w = (outcome o, add_rows p rs w).

Definition then_effect (s1 s2 : table * option exn) : table * option exn :=
  match s1 with
  | (rs, Some e) => (rs, Some e)
  | (rs, None) => (rs ++ fst s2, snd s2)
  end.

Fixpoint loop_effect (step : pyval -> table * option exn) (l : list pyval)
    : table * option exn :=
  match l with
  | [] => ([], None)
  | x :: l' => then_effect (step x) (loop_effect step l')
  end.

(** The loop bodies of the three projectors, as effects. *)
Definition node_row (d : pydict) : row := [dict_get d "pub_key" (PStr "")].

Definition node_effect (node : pyval) : table * option exn :=
  match node with
  | PDict d => ([node_row d], None)
  | _ => ([], Some (AttributeError node))
  end.

Definition channel_row (d : pydict) : row :=
  let channel_id := dict_get d "channel_id" (PStr "") in
  [channel_id; PStr (py_str channel_id +:+ "_1"); PStr (py_str channel_id +:+ "_2");
   dict_get d "node1_pub" (PStr ""); dict_get d "node2_pub" (PStr "");
   dict_get d "capacity" (PStr "0")].

Definition channel_effect (edge : pyval) : table * option exn :=
  match edge with
  | PDict d => ([channel_row d], None)
  | _ => ([], Some (AttributeError edge))
  end.

(** The row of one direction whose policy is the dict [pd]. *)
Definition policy_row (edge_id channel_id counter_id from_node to_node : pyval)
    (pd : pydict) : row :=
  [edge_id; channel_id; counter_id; from_node; to_node; PStr "";
   dict_get pd "fee_base_msat" (PStr "0"); dict_get pd "fee_rate_milli_msat" (PStr "0");
   dict_get pd "min_htlc" (PStr "0"); dict_get pd "time_lock_delta" (PStr "0")].

Definition policy_effect (edge_id channel_id counter_id from_node to_node policy : pyval)
    : table * option exn :=
  if truthy policy then
    match policy with
    | PDict pd => ([policy_row edge_id channel_id counter_id from_node to_node pd], None)
    | _ => ([], Some (AttributeError policy))
    end
  else ([], None).

Definition edge_effect (edge : pyval) : table * option exn :=
  match edge with
  | PDict d =>
      let channel_id := dict_get d "channel_id" (PStr "") in
      let node1_pub := dict_get d "node1_pub" (PStr "") in
      let node2_pub := dict_get d "node2_pub" (PStr "") in
      let edge1_id := PStr (py_str channel_id +:+ "_1") in
      let edge2_id := PStr (py_str channel_id +:+ "_2") in
      then_effect
        (policy_effect edge1_id channel_id edge2_id node1_pub node2_pub
           (dict_get d "node1_policy" (PDict [])))
        (policy_effect edge2_id channel_id edge1_id node2_pub node1_pub
           (dict_get d "node2_policy" (PDict [])))
  | _ => ([], Some (AttributeError edge))
  end.

(** A policy value the data model allows: an object, or a value that the
    guard [if policy:] skips. *)
Definition policy_ok (v : pyval) : bool :=
  match v with
  | PDict _ => true
  | _ => negb (truthy v)
  end.

Definition channel_ok (d : pydict) : bool :=
  policy_ok (dict_get d "node1_policy" (PDict []))
  && policy_ok (dict_get d "node2_policy" (PDict [])).

(** The dict without the key [k]. *)
Fixpoint del_key (k : string) (d : pydict) : pydict :=
  match d with
  | [] => []
  | (k', v) :: d' => if String.eqb k k' then del_key k d' else (k', v) :: del_key k d'
  end.

(** How many of the two policies of a channel pass the guard. *)
Definition truthy_policies (d : pydict) : nat :=
  (if truthy (dict_get d "node1_policy" (PDict [])) then 1 else 0)
  + (if truthy (dict_get d "node2_policy" (PDict [])) then 1 else 0).

(** A computation that only ever appends to the log. *)
Definition grows {A} (m : M A) : Prop :=
  forall w, exists evs, w_log (snd (m w)) = w_log w ++ evs.

(** The world after the first step of [main], which makes sure that the
    output directory exists (for an output path other than the empty one,
    which [os.makedirs] refuses). *)
Definition prepared (a : args) (w : world) : world :=
  match w_fs w !! output a with
  | Some _ => w
  | None =>
      World (<[output a := Dir]> (w_fs w))
        (w_log w ++ [EvMakedirs (output a);
                     EvPrint ("出力ディレクトリを作成しました: " +:+ output a)])
  end.

(** A load failure that [load_json_data] handles, with the line it prints. *)
Inductive load_failure (path : string) : option node -> string -> Prop :=
| load_missing :
    load_failure path None
      ("Error: JSONファイル '" +:+ path +:+ "' が見つかりません")
| load_malformed msg :
    load_failure path (Some (BadFile msg))
      ("Error: JSONファイルの読み込みエラー: " +:+ msg).

(** ** What a run may touch *)

(** The values that have a [get] method. *)
Definition is_dict (v : pyval) : bool :=
  match v with
  | PDict _ => true
  | _ => false
  end.

(** The items of a value that [len] measures and [for] runs through. *)
Definition py_items (v : pyval) : option (list pyval) :=
  match v with
  | PList l => Some l
  | PDict d => Some (map (fun kv => PStr (fst kv)) d)
  | PStr s => Some (chars s)
  | _ => None
  end.

(** The paths of the three tables. *)
Definition table_paths (a : args) : list string :=
  [path_join (output a) "nodes_ln.csv"; path_join (output a) "channels_ln.csv";
   path_join (output a) "edges_ln.csv"].

(** The effects of a projector that writes to [p]. *)
Definition projector_event (p : string) (e : event) : Prop :=
  match e with
  | EvPrint _ => True
  | EvOpenWrite q => q = p
  | _ => False
  end.

(** The effects of [main] once the output directory is there. *)
Definition convert_event (a : args) (e : event) : Prop :=
  match e with
  | EvPrint _ => True
  | EvOpenRead q => q = json_file a
  | EvOpenWrite q => q ∈ table_paths a
  | EvMakedirs _ => False
  end.

(** The effects of [main]. *)
Definition main_event (a : args) (e : event) : Prop :=
  match e with
  | EvMakedirs q => q = output a
  | _ => convert_event a e
  end.

(** A computation whose effects all satisfy [P] and that leaves every path
    outside [S] as it was. *)
Definition confined {A} (P : event -> Prop) (S : string -> Prop) (m : M A) : Prop :=
  forall w,
    (exists evs, w_log (snd (m w)) = w_log w ++ evs /\ Forall P evs)
    /\ (forall q, ~ S q -> w_fs (snd (m w)) !! q = w_fs w !! q).

(** Nothing but directories on the way to [p]: every existing path that [p]
    begins with, [p] itself apart, is a directory.  Below a regular file
    [open] and [os.makedirs] raise [NotADirectoryError], which the flat file
    system does not tell from a missing path. *)
Definition no_file_above (fs : gmap string node) (p : string) : Prop :=
  forall q n, String.prefix q p = true -> q <> p -> fs !! q = Some n -> n = Dir.

(** A file name: not empty and without a separator. *)
Fixpoint has_sep (s : string) : bool :=
  match s with
  | EmptyString => false
  | String c s' => Ascii.eqb c "/"%char || has_sep s'
  end.

Definition plain_name (s : string) : bool :=
  negb (String.eqb s "") && negb (has_sep s).

(** ** The monad and its primitives *)

Lemma add_rows_nil p w : add_rows p [] w = w.
Proof.
  unfold add_rows. destruct w as [fs lg]; simpl.
  destruct (fs !! p) as [[| | |t|]|] eqn:E; try reflexivity.
  rewrite app_nil_r, insert_id by exact E. reflexivity.
Qed.

Lemma add_rows_app p rs1 rs2 w :
  add_rows p rs2 (add_rows p rs1 w) = add_rows p (rs1 ++ rs2) w.
Proof.
  unfold add_rows. destruct w as [fs lg]; simpl.
  destruct (fs !! p) as [[| | |t|]|] eqn:E; simpl; rewrite ?E; try reflexivity.
  rewrite lookup_insert_eq, insert_insert_eq, app_assoc. reflexivity.
Qed.

Lemma add_rows_log p rs w : w_log (add_rows p rs w) = w_log w.
Proof. unfold add_rows. by repeat case_match. Qed.

Lemma add_rows_csv p rs w t :
  csv_at w p = Some t -> csv_at (add_rows p rs w) p = Some (t ++ rs).
Proof.
  unfold csv_at, add_rows. intros H.
  destruct (w_fs w !! p) as [[| | |t'|]|] eqn:E; try discriminate.
  injection H as ->. simpl. by rewrite lookup_insert_eq.
Qed.

Lemma writerow_run p r w : writerow p r w = (Ret tt, add_rows p [r] w).
Proof. unfold writerow, add_rows. by repeat case_match. Qed.

Lemma writes_ret p : writes p (ret tt) [] None.
Proof. intros w. by rewrite add_rows_nil. Qed.

Lemma writes_raise p e : writes p (raise e) [] (Some e).
Proof. intros w. by rewrite add_rows_nil. Qed.

Lemma writes_writerow p r : writes p (writerow p r) [r] None.
Proof. intros w. apply writerow_run. Qed.

Lemma writes_then p m k rs1 o1 rs2 o2 :
  writes p m rs1 o1 -> writes p k rs2 o2 ->
  writes p (m ;;; k) (fst (then_effect (rs1, o1) (rs2, o2)))
    (snd (then_effect (rs1, o1) (rs2, o2))).
Proof.
  intros Hm Hk w. unfold bind. rewrite Hm.
  destruct o1 as [e|]; simpl; [reflexivity|].
  by rewrite Hk, add_rows_app.
Qed.

Lemma writes_for_each p body step l :
  (forall x, writes p (body x) (fst (step x)) (snd (step x))) ->
  writes p (for_each l body) (fst (loop_effect step l)) (snd (loop_effect step l)).
Proof.
  intros Hbody. induction l as [|x l IH]; simpl.
  - apply writes_ret.
  - pose proof (writes_then p _ _ _ _ _ _ (Hbody x) IH) as H.
    by destruct (step x), (loop_effect step l).
Qed.

(** ** The loop bodies *)

Lemma node_body_writes p node :
  writes p (pub_key <- py_get node "pub_key" (PStr "") ;; writerow p [pub_key])
    (fst (node_effect node)) (snd (node_effect node)).
Proof.
  destruct node; try (intros w; simpl; by rewrite add_rows_nil).
  intros w. apply writerow_run.
Qed.

Lemma channel_body_writes p edge :
  writes p
    (channel_id <- py_get edge "channel_id" (PStr "") ;;
     node1_pub <- py_get edge "node1_pub" (PStr "") ;;
     node2_pub <- py_get edge "node2_pub" (PStr "") ;;
     capacity <- py_get edge "capacity" (PStr "0") ;;
     writerow p
       [channel_id; PStr (py_str channel_id +:+ "_1"); PStr (py_str channel_id +:+ "_2");
        node1_pub; node2_pub; capacity])
    (fst (channel_effect edge)) (snd (channel_effect edge)).
Proof.
  destruct edge; try (intros w; simpl; by rewrite add_rows_nil).
  intros w. apply writerow_run.
Qed.

Lemma policy_row_writes p edge_id channel_id counter_id from_node to_node policy :
  writes p
    (if truthy policy
     then write_policy_row p edge_id channel_id counter_id from_node to_node policy
     else ret tt)
    (fst (policy_effect edge_id channel_id counter_id from_node to_node policy))
    (snd (policy_effect edge_id channel_id counter_id from_node to_node policy)).
Proof.
  unfold policy_effect. destruct (truthy policy); [|apply writes_ret].
  destruct policy; try (intros w; simpl; by rewrite add_rows_nil).
  intros w. apply writerow_run.
Qed.

Lemma edge_body_writes p edge :
  writes p (edge_body p edge) (fst (edge_effect edge)) (snd (edge_effect edge)).
Proof.
  destruct edge; try (intros w; simpl; by rewrite add_rows_nil).
  unfold edge_body, edge_effect. simpl py_get.
  set (cid := dict_get d "channel_id" (PStr "")).
  set (n1 := dict_get d "node1_pub" (PStr "")).
  set (n2 := dict_get d "node2_pub" (PStr "")).
  set (p1 := dict_get d "node1_policy" (PDict [])).
  set (p2 := dict_get d "node2_policy" (PDict [])).
  pose proof (writes_then p _ _ _ _ _ _
    (policy_row_writes p (PStr (py_str cid +:+ "_1")) cid (PStr (py_str cid +:+ "_2")) n1 n2 p1)
    (policy_row_writes p (PStr (py_str cid +:+ "_2")) cid (PStr (py_str cid +:+ "_1")) n2 n1 p2))
    as H.
  destruct (policy_effect (PStr (py_str cid +:+ "_1")) cid _ n1 n2 p1) as [rs1 o1].
  destruct (policy_effect (PStr (py_str cid +:+ "_2")) cid _ n2 n1 p2) as [rs2 o2].
  exact H.
Qed.

(** ** The shape shared by the three projectors *)

Lemma projector_run p hdr body step (summary : nat -> string) l w :
  (forall x, writes p (body x) (fst (step x)) (snd (step x))) ->
  (open_csv p ;;; writerow p hdr ;;; py_for (PList l) body ;;;
   n <- py_len (PList l) ;; print (summary n)) w
  = let w1 := World (<[p := CsvFile (hdr :: fst (loop_effect step l))]> (w_fs w))
                (w_log w ++ [EvOpenWrite p]) in
    match snd (loop_effect step l) with
    | Some e => (Raise e, w1)
    | None => (Ret tt, log_event (EvPrint (summary (length l))) w1)
    end.
Proof.
  intros Hbody.
  pose proof (writes_for_each p body step l Hbody) as Hloop.
  destruct (loop_effect step l) as [rs o]; simpl in *.
  unfold bind at 1. unfold open_csv at 1.
  unfold bind at 1. rewrite writerow_run.
  unfold bind at 1. unfold py_for. simpl py_iter.
  unfold bind at 1. unfold ret at 1. rewrite Hloop.
  rewrite add_rows_app.
  assert (add_rows p ([hdr] ++ rs)
            (World (<[p := CsvFile []]> (w_fs w)) (w_log w ++ [EvOpenWrite p]))
          = World (<[p := CsvFile (hdr :: rs)]> (w_fs w)) (w_log w ++ [EvOpenWrite p]))
    as ->.
  { unfold add_rows; simpl. by rewrite lookup_insert_eq, insert_insert_eq. }
  destruct o as [e|]; reflexivity.
Qed.

Lemma generate_nodes_csv_run l p w :
  generate_nodes_csv (PList l) p w
  = let w1 := World (<[p := CsvFile (nodes_header :: fst (loop_effect node_effect l))]> (w_fs w))
                (w_log w ++ [EvOpenWrite p]) in
    match snd (loop_effect node_effect l) with
    | Some e => (Raise e, w1)
    | None =>
        (Ret tt,
         log_event
           (EvPrint ("Generated " +:+ p +:+ " with " +:+ str_nat (length l) +:+ " nodes")) w1)
    end.
Proof.
  apply (projector_run p nodes_header _ node_effect
           (fun n => "Generated " +:+ p +:+ " with " +:+ str_nat n +:+ " nodes")).
  apply node_body_writes.
Qed.

Lemma generate_channels_csv_run l p w :
  generate_channels_csv (PList l) p w
  = let w1 := World (<[p := CsvFile (channels_header :: fst (loop_effect channel_effect l))]>
                       (w_fs w))
                (w_log w ++ [EvOpenWrite p]) in
    match snd (loop_effect channel_effect l) with
    | Some e => (Raise e, w1)
    | None =>
        (Ret tt,
         log_event
           (EvPrint ("Generated " +:+ p +:+ " with " +:+ str_nat (length l) +:+ " channels"))
           w1)
    end.
Proof.
  apply (projector_run p channels_header _ channel_effect
           (fun n => "Generated " +:+ p +:+ " with " +:+ str_nat n +:+ " channels")).
  apply channel_body_writes.
Qed.

Lemma generate_edges_csv_run l p w :
  generate_edges_csv (PList l) p w
  = let w1 := World (<[p := CsvFile (edges_header :: fst (loop_effect edge_effect l))]> (w_fs w))
                (w_log w ++ [EvOpenWrite p]) in
    match snd (loop_effect edge_effect l) with
    | Some e => (Raise e, w1)
    | None =>
        (Ret tt,
         log_event
           (EvPrint
              ("Generated " +:+ p +:+ " with " +:+ str_nat (length l * 2) +:+ " edge policies"))
           w1)
    end.
Proof.
  apply (projector_run p edges_header _ edge_effect
           (fun n => "Generated " +:+ p +:+ " with " +:+ str_nat (n * 2) +:+ " edge policies")).
  apply edge_body_writes.
Qed.

(** A loop over dicts none of which raises writes the rows of each, in
    order. *)
Lemma loop_effect_dicts step (f : pydict -> table) (ds : list pydict) :
  (forall d, d ∈ ds -> step (PDict d) = (f d, None)) ->
  loop_effect step (PDict <$> ds) = (concat (f <$> ds), None).
Proof.
  induction ds as [|d ds IH]; intros H; [reflexivity|].
  rewrite !fmap_cons. cbn [loop_effect concat].
  rewrite (H d) by apply list_elem_of_here.
  rewrite IH by (intros d' Hd'; apply H; by apply list_elem_of_further).
  reflexivity.
Qed.

Lemma concat_singletons {A B} (f : A -> B) (l : list A) :
  concat ((fun x => [f x]) <$> l) = f <$> l.
Proof.
  induction l as [|x l IH]; [reflexivity|].
  rewrite !fmap_cons. cbn [concat app]. by rewrite IH.
Qed.

(** ** The node projector *)

(** C4: the node projector writes the header and then one row per element
    of the nodes sequence, in input order and without merging equal keys;
    the single cell of a row is the node's [pub_key], or the empty string
    when the node has none; so the number of data rows is the length of the
    sequence. *)
Theorem nodes_csv_one_row_per_node (nodes : list pydict) (p : string) (w : world) :
  exists rows : table,
    generate_nodes_csv (PList (PDict <$> nodes)) p w
    = (Ret tt,
       World (<[p := CsvFile (nodes_header :: rows)]> (w_fs w))
         (w_log w ++ [EvOpenWrite p;
                      EvPrint ("Generated " +:+ p +:+ " with "
                               +:+ str_nat (length nodes) +:+ " nodes")]))
    /\ length rows = length nodes
    /\ forall i d, nodes !! i = Some d ->
         rows !! i = Some [match assoc "pub_key" d with
                           | Some v => v
                           | None => PStr ""
                           end].
Proof.
  exists (node_row <$> nodes). split; [|split].
  - rewrite generate_nodes_csv_run.
    rewrite (loop_effect_dicts node_effect (fun d => [node_row d])) by reflexivity.
    simpl. rewrite concat_singletons, length_fmap.
    unfold log_event; simpl. by rewrite <- app_assoc.
  - apply length_fmap.
  - intros i d Hi. rewrite list_lookup_fmap, Hi. reflexivity.
Qed.

(** ** The channel projector *)

(** C3: the channel projector writes the header and then exactly one row per
    channel, in input order.  The row holds the [channel_id] (empty string
    when absent), the two edge ids, which are the text of the [channel_id]
    followed by [_1] and [_2], the two endpoints, and the capacity as found,
    ["0"] when absent.  For a string [channel_id] the edge ids are plain
    concatenations, and an absent or empty one gives [_1] and [_2]. *)
Theorem channels_csv_one_row_per_channel (chans : list pydict) (p : string) (w : world) :
  exists rows : table,
    generate_channels_csv (PList (PDict <$> chans)) p w
    = (Ret tt,
       World (<[p := CsvFile (channels_header :: rows)]> (w_fs w))
         (w_log w ++ [EvOpenWrite p;
                      EvPrint ("Generated " +:+ p +:+ " with "
                               +:+ str_nat (length chans) +:+ " channels")]))
    /\ length rows = length chans
    /\ forall i d, chans !! i = Some d ->
         let channel_id := match assoc "channel_id" d with Some v => v | None => PStr "" end in
         let node1_pub := match assoc "node1_pub" d with Some v => v | None => PStr "" end in
         let node2_pub := match assoc "node2_pub" d with Some v => v | None => PStr "" end in
         let capacity := match assoc "capacity" d with Some v => v | None => PStr "0" end in
         rows !! i = Some [channel_id; PStr (py_str channel_id +:+ "_1");
                           PStr (py_str channel_id +:+ "_2");
                           node1_pub; node2_pub; capacity]
         /\ (forall s, channel_id = PStr s ->
              rows !! i = Some [PStr s; PStr (s +:+ "_1"); PStr (s +:+ "_2");
                                node1_pub; node2_pub; capacity])
         /\ (assoc "channel_id" d = None \/ assoc "channel_id" d = Some (PStr "") ->
              rows !! i = Some [PStr ""; PStr "_1"; PStr "_2"; node1_pub; node2_pub; capacity]).
Proof.
  exists (channel_row <$> chans). split; [|split].
  - rewrite generate_channels_csv_run.
    rewrite (loop_effect_dicts channel_effect (fun d => [channel_row d])) by reflexivity.
    simpl. rewrite concat_singletons, length_fmap.
    unfold log_event; simpl. by rewrite <- app_assoc.
  - apply length_fmap.
  - intros i d Hi. rewrite list_lookup_fmap, Hi. simpl.
    unfold channel_row, dict_get. split; [reflexivity|]. split.
    + intros s ->. reflexivity.
    + intros [-> | ->]; reflexivity.
Qed.

(** ** The edge projector *)

Lemma policy_effect_skip a b c d e policy :
  truthy policy = false -> policy_effect a b c d e policy = ([], None).
Proof. unfold policy_effect. by intros ->. Qed.

Lemma policy_effect_dict a b c d e pd :
  pd <> [] -> policy_effect a b c d e (PDict pd) = ([policy_row a b c d e pd], None).
Proof. unfold policy_effect. by destruct pd. Qed.

Lemma policy_effect_ok a b c d e policy :
  policy_ok policy = true -> snd (policy_effect a b c d e policy) = None.
Proof.
  unfold policy_effect, policy_ok.
  destruct policy; try (by intros ->%negb_true_iff).
  by destruct (truthy (PDict _)).
Qed.

Lemma policy_effect_length a b c d e policy :
  policy_ok policy = true ->
  length (fst (policy_effect a b c d e policy)) = if truthy policy then 1 else 0.
Proof.
  unfold policy_effect, policy_ok.
  destruct policy; try (by intros ->%negb_true_iff).
  by destruct (truthy (PDict _)).
Qed.

Lemma then_effect_ok s1 s2 :
  snd s1 = None -> then_effect s1 s2 = (fst s1 ++ fst s2, snd s2).
Proof. destruct s1 as [rs [e|]]; simpl; [discriminate|reflexivity]. Qed.

Lemma edge_effect_ok d :
  channel_ok d = true ->
  edge_effect (PDict d)
  = (let channel_id := dict_get d "channel_id" (PStr "") in
     let node1_pub := dict_get d "node1_pub" (PStr "") in
     let node2_pub := dict_get d "node2_pub" (PStr "") in
     let edge1_id := PStr (py_str channel_id +:+ "_1") in
     let edge2_id := PStr (py_str channel_id +:+ "_2") in
     fst (policy_effect edge1_id channel_id edge2_id node1_pub node2_pub
            (dict_get d "node1_policy" (PDict [])))
     ++ fst (policy_effect edge2_id channel_id edge1_id node2_pub node1_pub
               (dict_get d "node2_policy" (PDict []))),
     None).
Proof.
  unfold channel_ok. intros [H1 H2]%andb_true_iff. unfold edge_effect. cbv zeta.
  rewrite then_effect_ok by (by apply policy_effect_ok).
  by rewrite policy_effect_ok.
Qed.

Lemma channels_ok_elem chans d :
  forallb channel_ok chans = true -> d ∈ chans -> channel_ok d = true.
Proof. rewrite forallb_forall. intros H Hd. apply H. by apply list_elem_of_In. Qed.

Lemma edges_loop_ok chans :
  forallb channel_ok chans = true ->
  loop_effect edge_effect (PDict <$> chans)
  = (concat ((fun d => fst (edge_effect (PDict d))) <$> chans), None).
Proof.
  intros Hok. apply loop_effect_dicts. intros d Hd.
  rewrite (edge_effect_ok d) by eauto using channels_ok_elem. reflexivity.
Qed.

Lemma length_concat_fmap {A B} (f : A -> list B) (l : list A) :
  length (concat (f <$> l)) = sum_list_with (fun x => length (f x)) l.
Proof.
  induction l as [|x l IH]; [reflexivity|].
  rewrite fmap_cons. cbn [concat sum_list_with]. by rewrite length_app, IH.
Qed.

(** C1, amended: a channel gets one directed row per policy that passes the
    guard [if policy:], which an object does unless it is empty.  With both
    policies absent or falsy the channel emits no row; with exactly one
    non-empty policy object it emits exactly that direction's row; with two
    it emits two rows, the [node1_policy] row from [node1_pub] to
    [node2_pub] and then the [node2_policy] row with the endpoints swapped.
    The four policy cells are the policy's fields, ["0"] where a field is
    absent. *)
Theorem edges_csv_rows_per_truthy_policy (chans : list pydict) (p : string) (w : world) :
  forallb channel_ok chans = true ->
  exists emitted : list table,
    fst (generate_edges_csv (PList (PDict <$> chans)) p w) = Ret tt
    /\ csv_at (snd (generate_edges_csv (PList (PDict <$> chans)) p w)) p
       = Some (edges_header :: concat emitted)
    /\ length emitted = length chans
    /\ forall i d, chans !! i = Some d ->
         let channel_id := match assoc "channel_id" d with Some v => v | None => PStr "" end in
         let node1_pub := match assoc "node1_pub" d with Some v => v | None => PStr "" end in
         let node2_pub := match assoc "node2_pub" d with Some v => v | None => PStr "" end in
         let node1_policy :=
           match assoc "node1_policy" d with Some v => v | None => PDict [] end in
         let node2_policy :=
           match assoc "node2_policy" d with Some v => v | None => PDict [] end in
         let edge1_id := PStr (py_str channel_id +:+ "_1") in
         let edge2_id := PStr (py_str channel_id +:+ "_2") in
         let row1 := policy_row edge1_id channel_id edge2_id node1_pub node2_pub in
         let row2 := policy_row edge2_id channel_id edge1_id node2_pub node1_pub in
         (truthy node1_policy = false -> truthy node2_policy = false ->
          emitted !! i = Some [])
         /\ (forall pd1, node1_policy = PDict pd1 -> pd1 <> [] ->
              truthy node2_policy = false ->
              emitted !! i = Some [row1 pd1])
         /\ (forall pd2, truthy node1_policy = false ->
              node2_policy = PDict pd2 -> pd2 <> [] ->
              emitted !! i = Some [row2 pd2])
         /\ (forall pd1 pd2, node1_policy = PDict pd1 -> pd1 <> [] ->
              node2_policy = PDict pd2 -> pd2 <> [] ->
              emitted !! i = Some [row1 pd1; row2 pd2]).
Proof.
  intros Hok. exists ((fun d => fst (edge_effect (PDict d))) <$> chans).
  rewrite generate_edges_csv_run, edges_loop_ok by done. cbn [fst snd].
  split; [reflexivity|]. split.
  { unfold csv_at, log_event; simpl. by rewrite lookup_insert_eq. }
  split; [apply length_fmap|].
  intros i d Hi. rewrite list_lookup_fmap, Hi. cbn [fmap option_fmap option_map].
  assert (channel_ok d = true) as Hd
    by (eapply channels_ok_elem; [done|]; by eapply list_elem_of_lookup_2).
  rewrite (edge_effect_ok d Hd). cbv zeta. cbn [fst]. unfold dict_get.
  repeat split.
  - intros H1 H2. by rewrite !policy_effect_skip.
  - intros pd1 -> Hne H2. by rewrite policy_effect_dict, policy_effect_skip.
  - intros pd2 H1 -> Hne. by rewrite policy_effect_skip, policy_effect_dict.
  - intros pd1 pd2 -> Hne1 -> Hne2. by rewrite !policy_effect_dict.
Qed.

(** C7: the summary line of the edge projector reports twice the number of
    channels, whereas the rows it wrote number one per policy that passed
    the guard. *)
Theorem edges_summary_counts_two_per_channel (chans : list pydict) (p : string) (w : world) :
  forallb channel_ok chans = true ->
  exists rows : table,
    generate_edges_csv (PList (PDict <$> chans)) p w
    = (Ret tt,
       World (<[p := CsvFile (edges_header :: rows)]> (w_fs w))
         (w_log w ++ [EvOpenWrite p;
                      EvPrint ("Generated " +:+ p +:+ " with "
                               +:+ str_nat (2 * length chans) +:+ " edge policies")]))
    /\ length rows = sum_list_with truthy_policies chans.
Proof.
  intros Hok. exists (concat ((fun d => fst (edge_effect (PDict d))) <$> chans)).
  split.
  - rewrite generate_edges_csv_run, edges_loop_ok by done. cbn [fst snd].
    rewrite length_fmap, (Nat.mul_comm 2).
    unfold log_event; simpl. by rewrite <- app_assoc.
  - rewrite length_concat_fmap.
    clear w p. induction chans as [|d chans IH]; [reflexivity|].
    simpl in Hok. apply andb_true_iff in Hok as [Hd Hok].
    cbn [sum_list_with]. rewrite IH by done. f_equal.
    rewrite (edge_effect_ok d Hd). cbv zeta. cbn [fst].
    pose proof Hd as [H1 H2]%andb_true_iff.
    rewrite length_app, !policy_effect_length by done. reflexivity.
Qed.

Lemma assoc_del_key_eq k d : assoc k (del_key k d) = None.
Proof.
  induction d as [|[k' v] d IH]; [reflexivity|]. simpl.
  destruct (String.eqb k k') eqn:E; [exact IH|]. simpl. by rewrite E.
Qed.

Lemma assoc_del_key_ne k k' d :
  String.eqb k k' = false -> assoc k' (del_key k d) = assoc k' d.
Proof.
  intros Hne. induction d as [|[k0 v] d IH]; [reflexivity|]. simpl.
  destruct (String.eqb k k0) eqn:E.
  - apply String.eqb_eq in E as <-. rewrite String.eqb_sym, Hne. exact IH.
  - simpl. by rewrite IH.
Qed.

Lemma dict_get_del_key_eq k d dflt : dict_get (del_key k d) k dflt = dflt.
Proof. unfold dict_get. by rewrite assoc_del_key_eq. Qed.

Lemma dict_get_del_key_ne k k' d dflt :
  String.eqb k k' = false -> dict_get (del_key k d) k' dflt = dict_get d k' dflt.
Proof. intros H. unfold dict_get. by rewrite assoc_del_key_ne. Qed.

Lemma string_length_app s t :
  String.length (s +:+ t) = String.length s + String.length t.
Proof. induction s as [|c s IH]; simpl; [reflexivity|by rewrite IH]. Qed.

Lemma append_inv_tail s1 s2 t1 t2 :
  String.length t1 = String.length t2 -> s1 +:+ t1 = s2 +:+ t2 -> s1 = s2 /\ t1 = t2.
Proof.
  intros Hlen. revert s2. induction s1 as [|c s1 IH]; intros [|c' s2] H; simpl in H.
  - done.
  - apply (f_equal String.length) in H. simpl in H.
    rewrite !string_length_app in H. simpl in H. lia.
  - apply (f_equal String.length) in H. simpl in H.
    rewrite !string_length_app in H. simpl in H. lia.
  - injection H as -> H. destruct (IH _ H) as [-> ->]. done.
Qed.

Lemma edge_ids_differ c c' : c +:+ "_1" <> c' +:+ "_2".
Proof. intros H. by apply append_inv_tail in H as [_ ?]. Qed.

Lemma edge_id_inj c c' suffix : c +:+ suffix = c' +:+ suffix -> c = c'.
Proof. intros H. by apply append_inv_tail in H as [? _]. Qed.

Lemma policy_effect_cells a b c d e policy r :
  r ∈ fst (policy_effect a b c d e policy) ->
  r !! 0%nat = Some a /\ r !! 1%nat = Some b /\ r !! 2%nat = Some c.
Proof.
  unfold policy_effect. destruct (truthy policy); [|by intros ?%elem_of_nil].
  destruct policy; try (by intros ?%elem_of_nil).
  by intros ->%list_elem_of_singleton.
Qed.

Lemma policy_effect_truthy a b c d e policy :
  policy_ok policy = true -> truthy policy = true ->
  exists pd, fst (policy_effect a b c d e policy) = [policy_row a b c d e pd].
Proof.
  unfold policy_effect, policy_ok. intros Hok Ht. rewrite Ht.
  destruct policy; try (rewrite Ht in Hok; discriminate); eauto.
Qed.

Lemma then_effect_elem s1 s2 (r : row) :
  r ∈ fst (then_effect s1 s2) -> r ∈ fst s1 \/ r ∈ fst s2.
Proof.
  destruct s1 as [rs [e|]]; simpl; [by left|]. by intros ?%elem_of_app.
Qed.

(** Every row the edge loop writes is a direction of one of the channels:
    its id and counter id are the two edge ids of that channel, one way or
    the other. *)
Lemma edge_rows_directed l r :
  r ∈ fst (loop_effect edge_effect l) ->
  exists d, PDict d ∈ l
    /\ let channel_id := dict_get d "channel_id" (PStr "") in
       r !! 1%nat = Some channel_id
       /\ ((r !! 0%nat = Some (PStr (py_str channel_id +:+ "_1"))
            /\ r !! 2%nat = Some (PStr (py_str channel_id +:+ "_2")))
           \/ (r !! 0%nat = Some (PStr (py_str channel_id +:+ "_2"))
               /\ r !! 2%nat = Some (PStr (py_str channel_id +:+ "_1")))).
Proof.
  induction l as [|x l IH]; simpl; [by intros ?%elem_of_nil|].
  intros [Hx|Hl]%then_effect_elem.
  - destruct x; try (by apply elem_of_nil in Hx).
    exists d. split; [apply list_elem_of_here|].
    unfold edge_effect in Hx. cbv zeta in *.
    apply then_effect_elem in Hx as [H|H];
      apply policy_effect_cells in H as (H0 & H1 & H2); split; auto.
  - destruct (IH Hl) as (d & Hd & H). exists d. split; [by apply list_elem_of_further|done].
Qed.

(** ** The log only grows *)

Create HintDb grows.

Lemma grows_ret {A} (a : A) : grows (ret a).
Proof. intros w. exists []. by rewrite app_nil_r. Qed.

Lemma grows_raise {A} e : grows (@raise A e).
Proof. intros w. exists []. by rewrite app_nil_r. Qed.

Lemma grows_bind {A B} (m : M A) (k : A -> M B) :
  grows m -> (forall a, grows (k a)) -> grows (bind m k).
Proof.
  intros Hm Hk w. unfold bind. destruct (Hm w) as [evs1 H1].
  destruct (m w) as [[a|e] w1]; simpl in *.
  - destruct (Hk a w1) as [evs2 H2]. exists (evs1 ++ evs2).
    by rewrite H2, H1, app_assoc.
  - by exists evs1.
Qed.

Lemma grows_try_except {A} (m : M A) h :
  grows m -> (forall e, grows (h e)) -> grows (try_except m h).
Proof.
  intros Hm Hh w. unfold try_except. destruct (Hm w) as [evs1 H1].
  destruct (m w) as [[a|e] w1]; simpl in *.
  - by exists evs1.
  - destruct (Hh e w1) as [evs2 H2]. exists (evs1 ++ evs2).
    by rewrite H2, H1, app_assoc.
Qed.

Lemma grows_print line : grows (print line).
Proof. intros w. by exists [EvPrint line]. Qed.

Lemma grows_path_exists p : grows (path_exists p).
Proof. intros w. exists []. by rewrite app_nil_r. Qed.

Lemma grows_makedirs p : grows (makedirs p).
Proof.
  intros w. unfold makedirs. destruct (String.eqb p "").
  - exists []. simpl. by rewrite app_nil_r.
  - by exists [EvMakedirs p].
Qed.

Lemma grows_open_json p : grows (open_json p).
Proof. intros w. exists [EvOpenRead p]. unfold open_json. by repeat case_match. Qed.

Lemma grows_open_csv p : grows (open_csv p).
Proof. intros w. by exists [EvOpenWrite p]. Qed.

Lemma grows_writerow p r : grows (writerow p r).
Proof. intros w. exists []. rewrite writerow_run. simpl. by rewrite add_rows_log, app_nil_r. Qed.

Lemma grows_py_get v k dflt : grows (py_get v k dflt).
Proof. destruct v; simpl; auto using @grows_ret, @grows_raise. Qed.

Lemma grows_py_len v : grows (py_len v).
Proof. destruct v; simpl; auto using @grows_ret, @grows_raise. Qed.

Lemma grows_py_iter v : grows (py_iter v).
Proof. destruct v; simpl; auto using @grows_ret, @grows_raise. Qed.

Lemma grows_for_each l body : (forall x, grows (body x)) -> grows (for_each l body).
Proof.
  intros Hbody. induction l as [|x l IH]; simpl.
  - apply grows_ret.
  - apply grows_bind; auto.
Qed.

Lemma grows_py_for v body : (forall x, grows (body x)) -> grows (py_for v body).
Proof.
  intros Hbody. apply grows_bind; [apply grows_py_iter|].
  intros l. by apply grows_for_each.
Qed.

Hint Resolve grows_ret grows_raise grows_print grows_path_exists grows_makedirs
  grows_open_json grows_open_csv grows_writerow grows_py_get grows_py_len grows_py_iter
  : grows.

Ltac grows_steps :=
  repeat first
    [ progress intros
    | apply grows_py_for
    | apply grows_for_each
    | apply grows_try_except
    | apply grows_bind
    | match goal with |- grows (if ?b then _ else _) => destruct b end
    | match goal with |- grows (match ?e with _ => _ end) => destruct e end
    | solve [auto with grows] ].

Lemma grows_generate_nodes_csv v p : grows (generate_nodes_csv v p).
Proof. unfold generate_nodes_csv. grows_steps. Qed.

Lemma grows_generate_channels_csv v p : grows (generate_channels_csv v p).
Proof. unfold generate_channels_csv. grows_steps. Qed.

Lemma grows_generate_edges_csv v p : grows (generate_edges_csv v p).
Proof. unfold generate_edges_csv, edge_body, write_policy_row. grows_steps. Qed.

Hint Resolve grows_generate_nodes_csv grows_generate_channels_csv grows_generate_edges_csv
  : grows.

(** ** Loading and [main] *)

Lemma load_json_data_failure path w line :
  load_failure path (w_fs w !! path) line ->
  load_json_data path w
  = (Ret (PDict []), World (w_fs w) (w_log w ++ [EvOpenRead path; EvPrint line])).
Proof.
  intros H. unfold load_json_data, try_except, open_json.
  inversion H as [Heq|msg Heq]; simpl;
    unfold bind, print, ret, log_event; simpl; by rewrite <- app_assoc.
Qed.

Lemma load_json_data_document path w doc :
  w_fs w !! path = Some (JsonFile doc) ->
  load_json_data path w = (Ret doc, log_event (EvOpenRead path) w).
Proof. intros H. unfold load_json_data, try_except, open_json. by rewrite H. Qed.

Lemma prepare_run a (k : M unit) w :
  output a <> "" ->
  (present <- path_exists (output a) ;;
   (if negb present
    then makedirs (output a) ;;;
         print ("出力ディレクトリを作成しました: " +:+ output a)
    else ret tt) ;;;
   k) w
  = k (prepared a w).
Proof.
  intros Hout%String.eqb_neq. unfold bind, path_exists, makedirs, prepared.
  rewrite Hout. destruct (w_fs w !! output a); simpl; [reflexivity|].
  unfold log_event; simpl. by rewrite <- app_assoc.
Qed.

Lemma prepared_lookup_ne a w p :
  p <> output a -> w_fs (prepared a w) !! p = w_fs w !! p.
Proof.
  intros Hne. unfold prepared. destruct (w_fs w !! output a); [reflexivity|].
  simpl. by rewrite lookup_insert_ne.
Qed.

Lemma prepared_lookup_some a w p n :
  w_fs w !! p = Some n -> w_fs (prepared a w) !! p = Some n.
Proof.
  intros Hp. destruct (decide (p = output a)) as [->|Hne].
  - unfold prepared. by rewrite Hp.
  - by rewrite prepared_lookup_ne.
Qed.

Lemma main_gives_up a w doc w1 :
  output a <> "" ->
  load_json_data (json_file a) (prepared a w) = (Ret doc, w1) ->
  truthy doc = false ->
  main a w = (Ret tt, log_event (EvPrint load_failed_line) w1).
Proof.
  intros Hout Hload Hfalsy. unfold main. rewrite prepare_run by done.
  unfold bind at 1. by rewrite Hload, Hfalsy.
Qed.

Lemma main_load_failure a w line :
  output a <> "" ->
  load_failure (json_file a) (w_fs w !! json_file a) line ->
  json_file a <> output a ->
  main a w
  = (Ret tt,
     World (w_fs (prepared a w))
       (w_log (prepared a w)
        ++ [EvOpenRead (json_file a); EvPrint line; EvPrint load_failed_line])).
Proof.
  intros Hout Hfail Hne.
  rewrite (main_gives_up a w (PDict []) _ Hout (load_json_data_failure _ _ line
             ltac:(by rewrite prepared_lookup_ne)) eq_refl).
  unfold log_event; simpl. by rewrite <- app_assoc.
Qed.

Lemma string_length_path_join a b :
  String.length a + String.length b <= String.length (path_join a b).
Proof.
  unfold path_join. destruct (_ || _); rewrite !string_length_app; simpl; lia.
Qed.

Lemma path_join_ne a b : b <> "" -> path_join a b <> a.
Proof.
  intros Hb Heq. pose proof (string_length_path_join a b) as Hlen.
  rewrite Heq in Hlen. destruct b; [done|]. simpl in Hlen. lia.
Qed.

Lemma open_then_grows {A} p (h : exn -> M pyval) (k : pyval -> M A) w :
  (forall e, grows (h e)) -> (forall v, grows (k v)) ->
  exists evs,
    w_log (snd (bind (try_except (open_json p) h) k w)) = w_log w ++ EvOpenRead p :: evs.
Proof.
  intros Hh Hk.
  assert (exists r, open_json p w = (r, log_event (EvOpenRead p) w)) as [r Hr].
  { unfold open_json. repeat case_match; eauto. }
  unfold bind, try_except. rewrite Hr. destruct r as [v|e].
  - destruct (Hk v (log_event (EvOpenRead p) w)) as [evs Hevs].
    exists evs. rewrite Hevs. simpl. by rewrite <- app_assoc.
  - destruct (grows_bind (h e) k (Hh e) Hk (log_event (EvOpenRead p) w)) as [evs Hevs].
    exists evs. unfold bind in Hevs. rewrite Hevs. simpl. by rewrite <- app_assoc.
Qed.

Lemma main_opens_after_preparing a w :
  output a <> "" ->
  exists evs,
    w_log (snd (main a w)) = w_log (prepared a w) ++ EvOpenRead (json_file a) :: evs.
Proof.
  intros Hout. unfold main. rewrite prepare_run by done. unfold load_json_data.
  apply open_then_grows; grows_steps.
Qed.

(** A document that is a non-empty object without [nodes] and [edges] is
    processed with both defaulting to the empty list: each of the three
    tables is written with its header only. *)
Lemma document_without_keys_is_processed a w d :
  output a <> "" ->
  w_fs w !! json_file a = Some (JsonFile (PDict d)) ->
  d <> [] ->
  assoc "nodes" d = None ->
  assoc "edges" d = None ->
  let nodes_output := path_join (output a) "nodes_ln.csv" in
  let channels_output := path_join (output a) "channels_ln.csv" in
  let edges_output := path_join (output a) "edges_ln.csv" in
  main a w
  = (Ret tt,
     World
       (<[edges_output := CsvFile [edges_header]]>
          (<[channels_output := CsvFile [channels_header]]>
             (<[nodes_output := CsvFile [nodes_header]]> (w_fs (prepared a w)))))
       (w_log (prepared a w)
        ++ [EvOpenRead (json_file a);
            EvPrint "読み込み完了: 0 nodes, 0 edges";
            EvOpenWrite nodes_output;
            EvPrint ("Generated " +:+ nodes_output +:+ " with 0 nodes");
            EvOpenWrite channels_output;
            EvPrint ("Generated " +:+ channels_output +:+ " with 0 channels");
            EvOpenWrite edges_output;
            EvPrint ("Generated " +:+ edges_output +:+ " with 0 edge policies");
            EvPrint "All CSV files generated successfully!"])).
Proof.
  intros Hout Hdoc Hd Hnodes Hedges nodes_output channels_output edges_output.
  unfold main. rewrite prepare_run by done.
  unfold bind at 1.
  rewrite (load_json_data_document _ _ _ (prepared_lookup_some a w _ _ Hdoc)).
  assert (truthy (PDict d) = true) as -> by (by destruct d).
  cbn [negb py_get]. unfold dict_get. rewrite Hnodes, Hedges.
  fold nodes_output channels_output edges_output.
  unfold bind, py_len, print, ret. cbv beta iota.
  rewrite generate_nodes_csv_run. cbn [loop_effect fst snd]. cbv beta iota zeta.
  rewrite generate_channels_csv_run. cbn [loop_effect fst snd]. cbv beta iota zeta.
  rewrite generate_edges_csv_run. cbn [loop_effect fst snd]. cbv beta iota zeta.
  unfold log_event. cbn [w_fs w_log length Nat.mul].
  rewrite <- !app_assoc. reflexivity.
Qed.

(** C5: a document that [json.load] decodes to a falsy value, the empty
    object in particular, is not processed: [main] prints the load-failure
    line and returns, and no table is written. *)
Theorem falsy_document_reported_as_load_failure (a : args) (w : world) (doc : pyval) :
  output a <> "" ->
  w_fs w !! json_file a = Some (JsonFile doc) ->
  truthy doc = false ->
  main a w
  = (Ret tt,
     World (w_fs (prepared a w))
       (w_log (prepared a w) ++ [EvOpenRead (json_file a); EvPrint load_failed_line])).
Proof.
  intros Hout Hdoc Hfalsy.
  rewrite (main_gives_up a w doc _ Hout
             (load_json_data_document _ _ doc (prepared_lookup_some a w _ _ Hdoc)) Hfalsy).
  unfold log_event; simpl. by rewrite <- app_assoc.
Qed.







(** C10: when the output directory does not exist, [main] creates it before
    it opens the input file; so after a load failure the directory is there,
    and it is all that changed: no table was written. *)
Theorem output_directory_created_before_load (a : args) (w : world) :
  output a <> "" ->
  w_fs w !! output a = None ->
  (exists evs,
     w_log (snd (main a w))
     = w_log w
       ++ [EvMakedirs (output a);
           EvPrint ("出力ディレクトリを作成しました: " +:+ output a);
           EvOpenRead (json_file a)]
       ++ evs)
  /\ forall line,
       load_failure (json_file a) (w_fs w !! json_file a) line ->
       json_file a <> output a ->
       fst (main a w) = Ret tt
       /\ w_fs (snd (main a w)) = <[output a := Dir]> (w_fs w).
Proof.
  intros Hnonempty Hout. split.
  - destruct (main_opens_after_preparing a w Hnonempty) as [evs Hevs].
    exists evs. rewrite Hevs. unfold prepared. rewrite Hout. simpl.
    by rewrite <- app_assoc.
  - intros line Hfail Hne. rewrite (main_load_failure a w line) by done. simpl.
    unfold prepared. by rewrite Hout.
Qed.

(** ** Effects and paths of a run *)

Lemma confined_weaken {A} (P P' : event -> Prop) (S S' : string -> Prop) (m : M A) :
  (forall e, P e -> P' e) -> (forall q, S q -> S' q) ->
  confined P S m -> confined P' S' m.
Proof.
  intros HP HS Hm w. destruct (Hm w) as [(evs & Hlog & Hevs) Hfs]. split.
  - exists evs. split; [done|]. eapply Forall_impl; eauto.
  - intros q Hq. apply Hfs. intros Hq'. by apply Hq, HS.
Qed.

Lemma confined_pure {A} P S (m : M A) :
  (forall w, snd (m w) = w) -> confined P S m.
Proof.
  intros Hm w. rewrite Hm. split; [|done].
  exists []. by rewrite app_nil_r.
Qed.

Lemma confined_ret {A} P S (a : A) : confined P S (ret a).
Proof. by apply confined_pure. Qed.

Lemma confined_raise {A} P S e : confined P S (@raise A e).
Proof. by apply confined_pure. Qed.

Lemma confined_bind {A B} P S (m : M A) (k : A -> M B) :
  confined P S m -> (forall a, confined P S (k a)) -> confined P S (bind m k).
Proof.
  intros Hm Hk w. unfold bind. destruct (Hm w) as [(evs1 & H1 & F1) Hfs1].
  destruct (m w) as [[a|e] w1]; simpl in *.
  - destruct (Hk a w1) as [(evs2 & H2 & F2) Hfs2]. split.
    + exists (evs1 ++ evs2). split; [by rewrite H2, H1, app_assoc|by apply Forall_app].
    + intros q Hq. by rewrite Hfs2, Hfs1.
  - split; eauto.
Qed.

Lemma confined_try_except {A} P S (m : M A) h :
  confined P S m -> (forall e, confined P S (h e)) -> confined P S (try_except m h).
Proof.
  intros Hm Hh w. unfold try_except. destruct (Hm w) as [(evs1 & H1 & F1) Hfs1].
  destruct (m w) as [[a|e] w1]; simpl in *.
  - split; eauto.
  - destruct (Hh e w1) as [(evs2 & H2 & F2) Hfs2]. split.
    + exists (evs1 ++ evs2). split; [by rewrite H2, H1, app_assoc|by apply Forall_app].
    + intros q Hq. by rewrite Hfs2, Hfs1.
Qed.

Lemma confined_print (P : event -> Prop) S line :
  P (EvPrint line) -> confined P S (print line).
Proof. intros HP w. split; [|done]. exists [EvPrint line]. split; [done|]. by constructor. Qed.

Lemma confined_path_exists P S p : confined P S (path_exists p).
Proof. by apply confined_pure. Qed.

Lemma confined_makedirs (P : event -> Prop) (S : string -> Prop) p :
  P (EvMakedirs p) -> S p -> confined P S (makedirs p).
Proof.
  intros HP HS w. unfold makedirs. destruct (String.eqb p "").
  - simpl. split; [|done]. exists []. by rewrite app_nil_r.
  - simpl. split.
    + exists [EvMakedirs p]. split; [done|]. by constructor.
    + intros q Hq. apply lookup_insert_ne. by intros ->.
Qed.

Lemma confined_open_json (P : event -> Prop) S p :
  P (EvOpenRead p) -> confined P S (open_json p).
Proof.
  intros HP w.
  assert (snd (open_json p w) = log_event (EvOpenRead p) w) as ->
    by (unfold open_json; by repeat case_match).
  split; [|done]. exists [EvOpenRead p]. split; [done|]. by constructor.
Qed.

Lemma confined_open_csv (P : event -> Prop) (S : string -> Prop) p :
  P (EvOpenWrite p) -> S p -> confined P S (open_csv p).
Proof.
  intros HP HS w. simpl. split.
  - exists [EvOpenWrite p]. split; [done|]. by constructor.
  - intros q Hq. apply lookup_insert_ne. by intros ->.
Qed.

Lemma confined_writerow P (S : string -> Prop) p r : S p -> confined P S (writerow p r).
Proof.
  intros HS w. rewrite writerow_run. simpl. split.
  - exists []. by rewrite add_rows_log, app_nil_r.
  - intros q Hq. unfold add_rows. repeat case_match; try done.
    simpl. apply lookup_insert_ne. by intros ->.
Qed.

Lemma confined_py_get P S v k dflt : confined P S (py_get v k dflt).
Proof. apply confined_pure. by destruct v. Qed.

Lemma confined_py_len P S v : confined P S (py_len v).
Proof. apply confined_pure. by destruct v. Qed.

Lemma confined_py_iter P S v : confined P S (py_iter v).
Proof. apply confined_pure. by destruct v. Qed.

Lemma confined_for_each P S l body :
  (forall x, confined P S (body x)) -> confined P S (for_each l body).
Proof.
  intros Hbody. induction l as [|x l IH]; simpl.
  - apply confined_ret.
  - apply confined_bind; auto.
Qed.

Lemma confined_py_for P S v body :
  (forall x, confined P S (body x)) -> confined P S (py_for v body).
Proof.
  intros Hbody. apply confined_bind; [apply confined_py_iter|].
  intros l. by apply confined_for_each.
Qed.

Ltac confined_steps_with special :=
  repeat first
    [ progress intros
    | special
    | apply confined_py_for
    | apply confined_for_each
    | apply confined_try_except
    | apply confined_bind
    | match goal with |- confined _ _ (if ?b then _ else _) => destruct b end
    | match goal with |- confined _ _ (match ?e with _ => _ end) => destruct e end
    | apply confined_ret
    | apply confined_raise
    | apply confined_path_exists
    | apply confined_py_get
    | apply confined_py_len
    | apply confined_py_iter
    | solve [apply confined_print; exact I]
    | solve [apply confined_writerow; reflexivity]
    | solve [apply confined_open_csv; reflexivity] ].

Ltac confined_steps := confined_steps_with fail.

Lemma confined_generate_nodes_csv v p :
  confined (projector_event p) (eq p) (generate_nodes_csv v p).
Proof. unfold generate_nodes_csv. confined_steps. Qed.

Lemma confined_generate_channels_csv v p :
  confined (projector_event p) (eq p) (generate_channels_csv v p).
Proof. unfold generate_channels_csv. confined_steps. Qed.

Lemma confined_generate_edges_csv v p :
  confined (projector_event p) (eq p) (generate_edges_csv v p).
Proof. unfold generate_edges_csv, edge_body, write_policy_row. confined_steps. Qed.

Lemma confined_projector (P : event -> Prop) (S : string -> Prop) {A} p (m : M A) :
  (forall line, P (EvPrint line)) -> P (EvOpenWrite p) -> S p ->
  confined (projector_event p) (eq p) m -> confined P S m.
Proof.
  intros Hprint Hopen HS. apply confined_weaken.
  - intros [line|q|q|q]; simpl; try done. by intros ->.
  - by intros q <-.
Qed.

Lemma table_paths_nodes a : path_join (output a) "nodes_ln.csv" ∈ table_paths a.
Proof. apply list_elem_of_here. Qed.

Lemma table_paths_channels a : path_join (output a) "channels_ln.csv" ∈ table_paths a.
Proof. apply list_elem_of_further, list_elem_of_here. Qed.

Lemma table_paths_edges a : path_join (output a) "edges_ln.csv" ∈ table_paths a.
Proof. do 2 apply list_elem_of_further. apply list_elem_of_here. Qed.

Ltac table_path :=
  first [apply table_paths_nodes | apply table_paths_channels | apply table_paths_edges].

Ltac confined_main_step :=
  first
    [ solve [apply confined_open_json; reflexivity]
    | solve [apply confined_makedirs; [reflexivity|by left]]
    | solve [eapply confined_projector;
             [ intros; exact I
             |
             |
             | first [apply confined_generate_nodes_csv
                     | apply confined_generate_channels_csv
                     | apply confined_generate_edges_csv] ];
             first [table_path | right; table_path]] ].

Ltac confined_main_steps := confined_steps_with confined_main_step.

Lemma confined_main a :
  confined (main_event a) (fun q => q = output a \/ q ∈ table_paths a) (main a).
Proof. unfold main, load_json_data. confined_main_steps. Qed.

Lemma main_after_preparing a w :
  output a <> "" ->
  (exists evs,
     w_log (snd (main a w)) = w_log (prepared a w) ++ evs
     /\ Forall (convert_event a) evs)
  /\ (forall q, q ∉ table_paths a ->
      w_fs (snd (main a w)) !! q = w_fs (prepared a w) !! q).
Proof.
  intros Hout. unfold main. rewrite prepare_run by done.
  set (w0 := prepared a w).
  match goal with
  | |- context [snd (?k w0)] =>
      assert (confined (convert_event a) (fun q => q ∈ table_paths a) k) as Hk
  end.
  { unfold load_json_data. confined_main_steps. }
  exact (Hk w0).
Qed.

Lemma append_inv_head s t1 t2 : s +:+ t1 = s +:+ t2 -> t1 = t2.
Proof. induction s as [|c s IH]; simpl; [done|]. intros [=H]. by apply IH. Qed.

Lemma path_join_inj a b b' : path_join a b = path_join a b' -> b = b'.
Proof.
  unfold path_join. destruct (_ || _); intros H.
  - by apply append_inv_head in H.
  - by do 2 apply append_inv_head in H.
Qed.

Lemma output_not_table_path a : output a ∉ table_paths a.
Proof.
  unfold table_paths. intros H.
  repeat (apply elem_of_cons in H as [H|H];
          [symmetry in H; by apply path_join_ne in H|]).
  by apply elem_of_nil in H.
Qed.

Lemma prepared_output_exists a w :
  output a <> "" -> is_Some (w_fs (prepared a w) !! output a).
Proof.
  intros _. unfold prepared. destruct (w_fs w !! output a) eqn:E.
  - rewrite E. eauto.
  - simpl. rewrite lookup_insert_eq. eauto.
Qed.

Lemma prepared_existing a w :
  is_Some (w_fs w !! output a) -> prepared a w = w.
Proof. intros [n Hn]. unfold prepared. by rewrite Hn. Qed.

Lemma nodes_run_ok (ns : list pydict) p w :
  generate_nodes_csv (PList (PDict <$> ns)) p w
  = (Ret tt,
     World (<[p := CsvFile (nodes_header :: (node_row <$> ns))]> (w_fs w))
       (w_log w ++ [EvOpenWrite p;
                    EvPrint ("Generated " +:+ p +:+ " with "
                             +:+ str_nat (length ns) +:+ " nodes")])).
Proof.
  rewrite generate_nodes_csv_run.
  rewrite (loop_effect_dicts node_effect (fun d => [node_row d])) by reflexivity.
  simpl. rewrite concat_singletons, length_fmap.
  unfold log_event; simpl. by rewrite <- app_assoc.
Qed.

Lemma channels_run_ok (cs : list pydict) p w :
  generate_channels_csv (PList (PDict <$> cs)) p w
  = (Ret tt,
     World (<[p := CsvFile (channels_header :: (channel_row <$> cs))]> (w_fs w))
       (w_log w ++ [EvOpenWrite p;
                    EvPrint ("Generated " +:+ p +:+ " with "
                             +:+ str_nat (length cs) +:+ " channels")])).
Proof.
  rewrite generate_channels_csv_run.
  rewrite (loop_effect_dicts channel_effect (fun d => [channel_row d])) by reflexivity.
  simpl. rewrite concat_singletons, length_fmap.
  unfold log_event; simpl. by rewrite <- app_assoc.
Qed.

Lemma edges_run_ok (cs : list pydict) p w :
  forallb channel_ok cs = true ->
  generate_edges_csv (PList (PDict <$> cs)) p w
  = (Ret tt,
     World (<[p := CsvFile (edges_header
                            :: concat ((fun c => fst (edge_effect (PDict c))) <$> cs))]>
              (w_fs w))
       (w_log w ++ [EvOpenWrite p;
                    EvPrint ("Generated " +:+ p +:+ " with "
                             +:+ str_nat (length cs * 2) +:+ " edge policies")])).
Proof.
  intros Hok. rewrite generate_edges_csv_run, edges_loop_ok by done. cbn [fst snd].
  rewrite length_fmap. unfold log_event; simpl. by rewrite <- app_assoc.
Qed.

Lemma main_converts a w d (ns cs : list pydict) :
  output a <> "" ->
  w_fs w !! json_file a = Some (JsonFile (PDict d)) ->
  d <> [] ->
  dict_get d "nodes" (PList []) = PList (PDict <$> ns) ->
  dict_get d "edges" (PList []) = PList (PDict <$> cs) ->
  forallb channel_ok cs = true ->
  main a w
  = (Ret tt,
     World
       (<[path_join (output a) "edges_ln.csv" :=
            CsvFile (edges_header
                     :: concat ((fun c => fst (edge_effect (PDict c))) <$> cs))]>
          (<[path_join (output a) "channels_ln.csv" :=
               CsvFile (channels_header :: (channel_row <$> cs))]>
             (<[path_join (output a) "nodes_ln.csv" :=
                  CsvFile (nodes_header :: (node_row <$> ns))]>
                (w_fs (prepared a w)))))
       (w_log (prepared a w)
        ++ [EvOpenRead (json_file a);
            EvPrint ("読み込み完了: " +:+ str_nat (length ns) +:+ " nodes, "
                     +:+ str_nat (length cs) +:+ " edges");
            EvOpenWrite (path_join (output a) "nodes_ln.csv");
            EvPrint ("Generated " +:+ path_join (output a) "nodes_ln.csv" +:+ " with "
                     +:+ str_nat (length ns) +:+ " nodes");
            EvOpenWrite (path_join (output a) "channels_ln.csv");
            EvPrint ("Generated " +:+ path_join (output a) "channels_ln.csv" +:+ " with "
                     +:+ str_nat (length cs) +:+ " channels");
            EvOpenWrite (path_join (output a) "edges_ln.csv");
            EvPrint ("Generated " +:+ path_join (output a) "edges_ln.csv" +:+ " with "
                     +:+ str_nat (length cs * 2) +:+ " edge policies");
            EvPrint "All CSV files generated successfully!"])).
Proof.
  intros Hout Hdoc Hd Hnodes Hedges Hok.
  unfold main. rewrite prepare_run by done.
  unfold bind at 1.
  rewrite (load_json_data_document _ _ _ (prepared_lookup_some a w _ _ Hdoc)).
  assert (truthy (PDict d) = true) as -> by (by destruct d).
  cbn [negb py_get]. rewrite Hnodes, Hedges.
  unfold bind, py_len, print, ret. cbv beta iota.
  rewrite nodes_run_ok. cbv beta iota zeta.
  rewrite channels_run_ok. cbv beta iota zeta.
  rewrite edges_run_ok by done. cbv beta iota zeta.
  unfold log_event. cbn [w_fs w_log]. rewrite !length_fmap.
  rewrite <- !app_assoc. reflexivity.
Qed.

(** ** Further properties of [main] and the projectors *)

(** X1: where the output path is missing or a directory, nothing but
    directories lies on the way to it and none of the three table paths is
    a directory: for a non-empty object whose [nodes] is a list of objects
    and whose [edges] is a list of channels with object-or-falsy policies
    (either key may be absent), [main] returns normally and the three
    tables hold, at three different paths under the output directory, what
    the three projectors write; the progress lines come in the order load,
    nodes, channels, edges, success.  (With a regular file at the output
    path or above it, or a directory at a table path, [open] raises
    instead.) *)
Theorem main_converts_document (a : args) (w : world) (d : pydict)
    (ns cs : list pydict) :
  output a <> "" ->
  w_fs w !! output a = None \/ w_fs w !! output a = Some Dir ->
  no_file_above (w_fs w) (output a) ->
  (forall t, t ∈ table_paths a -> w_fs w !! t <> Some Dir) ->
  w_fs w !! json_file a = Some (JsonFile (PDict d)) ->
  d <> [] ->
  dict_get d "nodes" (PList []) = PList (PDict <$> ns) ->
  dict_get d "edges" (PList []) = PList (PDict <$> cs) ->
  forallb channel_ok cs = true ->
  let nodes_output := path_join (output a) "nodes_ln.csv" in
  let channels_output := path_join (output a) "channels_ln.csv" in
  let edges_output := path_join (output a) "edges_ln.csv" in
  fst (main a w) = Ret tt
  /\ csv_at (snd (main a w)) nodes_output = Some (nodes_header :: (node_row <$> ns))
  /\ csv_at (snd (main a w)) channels_output
     = Some (channels_header :: (channel_row <$> cs))
  /\ csv_at (snd (main a w)) edges_output
     = Some (edges_header :: concat ((fun c => fst (edge_effect (PDict c))) <$> cs))
  /\ w_log (snd (main a w))
     = w_log (prepared a w)
       ++ [EvOpenRead (json_file a);
           EvPrint ("読み込み完了: " +:+ str_nat (length ns) +:+ " nodes, "
                    +:+ str_nat (length cs) +:+ " edges");
           EvOpenWrite nodes_output;
           EvPrint ("Generated " +:+ nodes_output +:+ " with "
                    +:+ str_nat (length ns) +:+ " nodes");
           EvOpenWrite channels_output;
           EvPrint ("Generated " +:+ channels_output +:+ " with "
                    +:+ str_nat (length cs) +:+ " channels");
           EvOpenWrite edges_output;
           EvPrint ("Generated " +:+ edges_output +:+ " with "
                    +:+ str_nat (length cs * 2) +:+ " edge policies");
           EvPrint "All CSV files generated successfully!"].
Proof.
  intros Hout _ _ _ Hdoc Hd Hnodes Hedges Hok nodes_output channels_output edges_output.
  rewrite (main_converts a w d ns cs) by done. cbn [fst snd w_log].
  assert (nodes_output <> channels_output) as Hnc by (by intros ?%path_join_inj).
  assert (nodes_output <> edges_output) as Hne by (by intros ?%path_join_inj).
  assert (channels_output <> edges_output) as Hce by (by intros ?%path_join_inj).
  unfold csv_at; cbn [w_fs]. fold nodes_output channels_output edges_output.
  repeat split.
  - by rewrite !lookup_insert_ne, lookup_insert_eq by done.
  - by rewrite lookup_insert_ne, lookup_insert_eq by done.
  - by rewrite lookup_insert_eq.
Qed.

(** X2: under the conditions of X1 on the output path and the table paths,
    a second run on the outcome of a successful run leaves every file as
    the first run left it, provided the input file is not one of the three
    tables: the tables are overwritten with the same rows, not appended to,
    and the output directory is reused. *)
Theorem rerun_leaves_files_unchanged (a : args) (w : world) (d : pydict)
    (ns cs : list pydict) :
  output a <> "" ->
  w_fs w !! output a = None \/ w_fs w !! output a = Some Dir ->
  no_file_above (w_fs w) (output a) ->
  (forall t, t ∈ table_paths a -> w_fs w !! t <> Some Dir) ->
  w_fs w !! json_file a = Some (JsonFile (PDict d)) ->
  d <> [] ->
  dict_get d "nodes" (PList []) = PList (PDict <$> ns) ->
  dict_get d "edges" (PList []) = PList (PDict <$> cs) ->
  forallb channel_ok cs = true ->
  json_file a ∉ table_paths a ->
  fst (main a (snd (main a w))) = Ret tt
  /\ w_fs (snd (main a (snd (main a w)))) = w_fs (snd (main a w)).
Proof.
  intros Hout _ _ _ Hdoc Hd Hnodes Hedges Hok Hin.
  rewrite (main_converts a w d ns cs) by done. cbn [snd].
  set (w1 := World _ _).
  assert (forall q, q ∉ table_paths a -> w_fs w1 !! q = w_fs (prepared a w) !! q) as Hframe.
  { intros q Hq. unfold w1; cbn [w_fs].
    rewrite !lookup_insert_ne; [done|intros <-; apply Hq..].
    - apply table_paths_nodes.
    - apply table_paths_channels.
    - apply table_paths_edges. }
  assert (prepared a w1 = w1) as Hprep.
  { apply prepared_existing. rewrite Hframe by apply output_not_table_path.
    by apply prepared_output_exists. }
  assert (w_fs w1 !! json_file a = Some (JsonFile (PDict d))) as Hdoc1.
  { rewrite Hframe by done. by apply prepared_lookup_some. }
  rewrite (main_converts a w1 d ns cs) by done. cbn [fst snd w_fs].
  split; [reflexivity|]. rewrite Hprep. unfold w1; cbn [w_fs].
  apply map_eq. intros q. rewrite !lookup_insert. by repeat case_decide.
Qed.

Lemma prefix_refl s : String.prefix s s = true.
Proof.
  induction s as [|c s IH]; simpl; [done|]. by destruct (ascii_dec c c).
Qed.

(** X3: whatever the arguments, the world and the outcome, [main] changes no
    path other than the three tables and the output directory; the paths
    that the output path begins with, among them the directories above it
    that [os.makedirs] may create, are left out of the statement. *)
Theorem main_leaves_other_paths_alone (a : args) (w : world) :
  forall q, String.prefix q (output a) = false -> q ∉ table_paths a ->
    w_fs (snd (main a w)) !! q = w_fs w !! q.
Proof.
  intros q Hq Hq'. apply (confined_main a w). intros [->|?]; [|done].
  by rewrite prefix_refl in Hq.
Qed.

(** X4: whatever the arguments, the world and the outcome, the effects of
    [main] are lines printed, the creation of the output directory, the
    opening of the input file for reading and the opening of the three
    tables for writing. *)
Theorem main_effects_are_its_own (a : args) (w : world) :
  exists evs,
    w_log (snd (main a w)) = w_log w ++ evs
    /\ Forall (fun e =>
                 match e with
                 | EvPrint _ => True
                 | EvMakedirs q => q = output a
                 | EvOpenRead q => q = json_file a
                 | EvOpenWrite q =>
                     q ∈ [path_join (output a) "nodes_ln.csv";
                          path_join (output a) "channels_ln.csv";
                          path_join (output a) "edges_ln.csv"]
                 end) evs.
Proof.
  destruct (confined_main a w) as [(evs & Hlog & Hevs) _].
  exists evs. split; [done|]. eapply Forall_impl; [exact Hevs|].
  by intros [].
Qed.

(** X5: when the output path already exists, [main] creates no directory:
    it goes straight to opening the input file, and the node at the output
    path stays what it was. *)
Theorem existing_output_directory_is_reused (a : args) (w : world) :
  output a <> "" ->
  is_Some (w_fs w !! output a) ->
  (exists evs,
     w_log (snd (main a w)) = w_log w ++ EvOpenRead (json_file a) :: evs
     /\ Forall (fun e => forall q, e <> EvMakedirs q) evs)
  /\ w_fs (snd (main a w)) !! output a = w_fs w !! output a.
Proof.
  intros Hout Hex.
  destruct (main_after_preparing a w Hout) as [(evs & Hlog & Hevs) Hfs].
  destruct (main_opens_after_preparing a w Hout) as [evs' Hlog'].
  rewrite (prepared_existing a w Hex) in *. split.
  - exists evs'. split; [done|].
    rewrite Hlog in Hlog'. apply app_inv_head in Hlog'. subst evs.
    apply Forall_cons in Hevs as [_ Hevs].
    eapply Forall_impl; [exact Hevs|]. by intros [] He q.
  - apply Hfs, output_not_table_path.
Qed.

(** X6: whatever the data and the outcome, a projector prints lines and
    opens its own output file for writing, nothing else, and changes no
    path but that file. *)
Theorem projectors_touch_only_their_file (v : pyval) (p : string) (w : world) :
  let own e := match e with EvPrint _ => True | EvOpenWrite q => q = p | _ => False end in
  ((exists evs,
      w_log (snd (generate_nodes_csv v p w)) = w_log w ++ evs /\ Forall own evs)
   /\ forall q, q <> p -> w_fs (snd (generate_nodes_csv v p w)) !! q = w_fs w !! q)
  /\ ((exists evs,
         w_log (snd (generate_channels_csv v p w)) = w_log w ++ evs /\ Forall own evs)
      /\ forall q, q <> p -> w_fs (snd (generate_channels_csv v p w)) !! q = w_fs w !! q)
  /\ ((exists evs,
         w_log (snd (generate_edges_csv v p w)) = w_log w ++ evs /\ Forall own evs)
      /\ forall q, q <> p -> w_fs (snd (generate_edges_csv v p w)) !! q = w_fs w !! q).
Proof.
  intros own.
  assert (forall (m : M unit), confined (projector_event p) (eq p) m ->
            (exists evs, w_log (snd (m w)) = w_log w ++ evs /\ Forall own evs)
            /\ forall q, q <> p -> w_fs (snd (m w)) !! q = w_fs w !! q) as H.
  { intros m Hm. destruct (Hm w) as [Hlog Hfs]. split; [exact Hlog|].
    intros q Hq. apply Hfs. by intros <-. }
  split; [|split]; apply H.
  - apply confined_generate_nodes_csv.
  - apply confined_generate_channels_csv.
  - apply confined_generate_edges_csv.
Qed.

Lemma then_effect_nil s : then_effect ([], None) s = s.
Proof. by destruct s. Qed.

Lemma then_effect_assoc s1 s2 s3 :
  then_effect (then_effect s1 s2) s3 = then_effect s1 (then_effect s2 s3).
Proof.
  destruct s1 as [rs1 [e1|]], s2 as [rs2 [e2|]]; simpl; try reflexivity.
  by rewrite app_assoc.
Qed.

Lemma loop_effect_app step l1 l2 :
  loop_effect step (l1 ++ l2) = then_effect (loop_effect step l1) (loop_effect step l2).
Proof.
  induction l1 as [|x l1 IH].
  - by rewrite then_effect_nil.
  - cbn [app loop_effect]. by rewrite IH, then_effect_assoc.
Qed.

(** A loop stops at the first item whose body raises; the rows written so
    far stay. *)
Lemma loop_effect_stops step (f : pydict -> table) (ds : list pydict) x rest rs e :
  (forall d, d ∈ ds -> step (PDict d) = (f d, None)) ->
  step x = (rs, Some e) ->
  loop_effect step ((PDict <$> ds) ++ x :: rest) = (concat (f <$> ds) ++ rs, Some e).
Proof.
  intros Hds Hx. rewrite loop_effect_app, (loop_effect_dicts step f ds Hds).
  simpl. by rewrite Hx.
Qed.

Lemma node_effect_non_object x :
  is_dict x = false -> node_effect x = ([], Some (AttributeError x)).
Proof. by destruct x. Qed.

Lemma channel_effect_non_object x :
  is_dict x = false -> channel_effect x = ([], Some (AttributeError x)).
Proof. by destruct x. Qed.

Lemma policy_effect_bad a b c d e policy :
  policy_ok policy = false ->
  policy_effect a b c d e policy = ([], Some (AttributeError policy)).
Proof.
  unfold policy_effect, policy_ok.
  destruct policy; try done; intros ->%negb_false_iff; done.
Qed.

(** X7: when an element of the nodes list is not an object, the node
    projector raises [AttributeError] on it: the file keeps the header and
    the rows of the nodes before it, and no summary line is printed. *)
Theorem nodes_csv_stops_at_non_object (ns : list pydict) (x : pyval) (rest : list pyval)
    (p : string) (w : world) :
  is_dict x = false ->
  generate_nodes_csv (PList ((PDict <$> ns) ++ x :: rest)) p w
  = (Raise (AttributeError x),
     World
       (<[p := CsvFile (nodes_header
                        :: ((fun d => [dict_get d "pub_key" (PStr "")]) <$> ns))]> (w_fs w))
       (w_log w ++ [EvOpenWrite p])).
Proof.
  intros Hx. rewrite generate_nodes_csv_run.
  rewrite (loop_effect_stops node_effect (fun d => [node_row d]) ns x rest []
             (AttributeError x)) by (done || by apply node_effect_non_object).
  cbn [fst snd]. by rewrite app_nil_r, concat_singletons.
Qed.

(** X8: when an element of the edges list is not an object, the channel
    projector raises [AttributeError] on it: the file keeps the header and
    the rows of the channels before it, and no summary line is printed. *)
Theorem channels_csv_stops_at_non_object (cs : list pydict) (x : pyval)
    (rest : list pyval) (p : string) (w : world) :
  is_dict x = false ->
  generate_channels_csv (PList ((PDict <$> cs) ++ x :: rest)) p w
  = (Raise (AttributeError x),
     World (<[p := CsvFile (channels_header :: (channel_row <$> cs))]> (w_fs w))
       (w_log w ++ [EvOpenWrite p])).
Proof.
  intros Hx. rewrite generate_channels_csv_run.
  rewrite (loop_effect_stops channel_effect (fun d => [channel_row d]) cs x rest []
             (AttributeError x)) by (done || by apply channel_effect_non_object).
  cbn [fst snd]. by rewrite app_nil_r, concat_singletons.
Qed.

(** X9: when a channel has a policy that is truthy but not an object, the
    edge projector raises [AttributeError] on that policy and prints no
    summary line.  The file keeps the header and the rows of the channels
    before; if it is [node2_policy] that is at fault, the row of
    [node1_policy], when that one passed the guard, is kept as well. *)
Theorem edges_csv_stops_at_non_object_policy (cs : list pydict) (d : pydict)
    (rest : list pyval) (p : string) (w : world) :
  forallb channel_ok cs = true ->
  let channel_id := dict_get d "channel_id" (PStr "") in
  let node1_pub := dict_get d "node1_pub" (PStr "") in
  let node2_pub := dict_get d "node2_pub" (PStr "") in
  let edge1_id := PStr (py_str channel_id +:+ "_1") in
  let edge2_id := PStr (py_str channel_id +:+ "_2") in
  let node1_policy := dict_get d "node1_policy" (PDict []) in
  let node2_policy := dict_get d "node2_policy" (PDict []) in
  let before := concat ((fun c => fst (edge_effect (PDict c))) <$> cs) in
  (policy_ok node1_policy = false ->
   generate_edges_csv (PList ((PDict <$> cs) ++ PDict d :: rest)) p w
   = (Raise (AttributeError node1_policy),
      World (<[p := CsvFile (edges_header :: before)]> (w_fs w))
        (w_log w ++ [EvOpenWrite p])))
  /\ (policy_ok node1_policy = true -> policy_ok node2_policy = false ->
      generate_edges_csv (PList ((PDict <$> cs) ++ PDict d :: rest)) p w
      = (Raise (AttributeError node2_policy),
         World
           (<[p := CsvFile
                     (edges_header
                      :: before
                         ++ (if truthy node1_policy
                             then match node1_policy with
                                  | PDict pd =>
                                      [policy_row edge1_id channel_id edge2_id
                                         node1_pub node2_pub pd]
                                  | _ => []
                                  end
                             else []))]> (w_fs w))
           (w_log w ++ [EvOpenWrite p]))).
Proof.
  intros Hok channel_id node1_pub node2_pub edge1_id edge2_id node1_policy node2_policy
    before.
  assert (forall c, c ∈ cs ->
            edge_effect (PDict c) = (fst (edge_effect (PDict c)), None)) as Hcs.
  { intros c Hc. by rewrite (edge_effect_ok c) by eauto using channels_ok_elem. }
  split.
  - intros H1. rewrite generate_edges_csv_run.
    rewrite (loop_effect_stops edge_effect _ cs (PDict d) rest []
               (AttributeError node1_policy) Hcs).
    + cbn [fst snd]. by rewrite app_nil_r.
    + unfold edge_effect. cbv zeta.
      fold channel_id node1_pub node2_pub node1_policy node2_policy.
      by rewrite (policy_effect_bad _ _ _ _ _ node1_policy H1).
  - intros H1 H2. rewrite generate_edges_csv_run.
    rewrite (loop_effect_stops edge_effect _ cs (PDict d) rest
               (fst (policy_effect edge1_id channel_id edge2_id node1_pub node2_pub
                       node1_policy))
               (AttributeError node2_policy) Hcs).
    + cbn [fst snd]. unfold policy_effect.
      destruct (truthy node1_policy); [|done]. by destruct node1_policy.
    + unfold edge_effect. cbv zeta.
      fold channel_id node1_pub node2_pub node1_policy node2_policy edge1_id edge2_id.
      rewrite then_effect_ok by (by apply policy_effect_ok).
      by rewrite (policy_effect_bad _ _ _ _ _ node2_policy H2), app_nil_r.
Qed.

Lemma py_iter_items v :
  py_iter v = match py_items v with
              | Some l => ret l
              | None => raise (TypeError v)
              end.
Proof. by destruct v. Qed.

Lemma py_len_items v :
  py_len v = match py_items v with
             | Some l => ret (length l)
             | None => raise (TypeError v)
             end.
Proof.
  destruct v; simpl; try done. by rewrite length_map.
Qed.

Lemma main_loaded a w doc (k : pyval -> M unit) :
  w_fs w !! json_file a = Some (JsonFile doc) ->
  bind (load_json_data (json_file a)) k (prepared a w)
  = k doc (log_event (EvOpenRead (json_file a)) (prepared a w)).
Proof.
  intros Hdoc. unfold bind.
  by rewrite (load_json_data_document _ _ _ (prepared_lookup_some a w _ _ Hdoc)).
Qed.

(** X10: a document that is truthy but not an object (a non-empty array, a
    string, a number, [true]) makes [main] raise [AttributeError] at
    [data.get]: the exit status is 1 and no table is opened. *)
Theorem main_raises_on_non_object_document (a : args) (w : world) (doc : pyval) :
  output a <> "" ->
  w_fs w !! json_file a = Some (JsonFile doc) ->
  truthy doc = true ->
  is_dict doc = false ->
  main a w
  = (Raise (AttributeError doc),
     World (w_fs (prepared a w)) (w_log (prepared a w) ++ [EvOpenRead (json_file a)]))
  /\ exit_status (fst (main a w)) = 1%Z.
Proof.
  intros Hout Hdoc Ht Hd.
  assert (main a w
          = (Raise (AttributeError doc),
             World (w_fs (prepared a w))
               (w_log (prepared a w) ++ [EvOpenRead (json_file a)]))) as H.
  { unfold main. rewrite prepare_run by done. rewrite (main_loaded a w doc) by done.
    rewrite Ht. cbn [negb]. by destruct doc. }
  by rewrite H.
Qed.

(** X11: when the value under [nodes], or else the one under [edges], has no
    length ([null], a number, a boolean), [main] raises [TypeError] on it
    while building the load-complete line: the exit status is 1 and no
    table is opened. *)
Theorem main_raises_on_unsized_sections (a : args) (w : world) (d : pydict) :
  output a <> "" ->
  w_fs w !! json_file a = Some (JsonFile (PDict d)) ->
  d <> [] ->
  let nodes_data := dict_get d "nodes" (PList []) in
  let edges_data := dict_get d "edges" (PList []) in
  let loaded :=
    World (w_fs (prepared a w)) (w_log (prepared a w) ++ [EvOpenRead (json_file a)]) in
  (py_items nodes_data = None -> main a w = (Raise (TypeError nodes_data), loaded))
  /\ (is_Some (py_items nodes_data) -> py_items edges_data = None ->
      main a w = (Raise (TypeError edges_data), loaded)).
Proof.
  intros Hout Hdoc Hd nodes_data edges_data loaded.
  assert (main a w
          = (n <- py_len nodes_data ;;
             m <- py_len edges_data ;;
             print ("読み込み完了: " +:+ str_nat n +:+ " nodes, " +:+ str_nat m +:+ " edges") ;;;
             generate_nodes_csv nodes_data (path_join (output a) "nodes_ln.csv") ;;;
             generate_channels_csv edges_data (path_join (output a) "channels_ln.csv") ;;;
             generate_edges_csv edges_data (path_join (output a) "edges_ln.csv") ;;;
             print "All CSV files generated successfully!") loaded) as ->.
  { unfold main. rewrite prepare_run by done. rewrite (main_loaded a w (PDict d)) by done.
    assert (truthy (PDict d) = true) as -> by (by destruct d).
    reflexivity. }
  split.
  - intros Hn. unfold bind at 1. by rewrite py_len_items, Hn.
  - intros [l Hn] He. unfold bind at 1. rewrite py_len_items, Hn. cbn [ret].
    unfold bind at 1. by rewrite py_len_items, He.
Qed.

(** X12: when the input path is a directory, the loader does not catch the
    [IsADirectoryError]: [main] raises it and the exit status is 1.  This is
    also what happens when the input path is the output path and neither
    exists, since [main] has then just created it as a directory. *)
Theorem main_raises_on_directory_input (a : args) (w : world) :
  output a <> "" ->
  w_fs w !! json_file a = Some Dir
  \/ (json_file a = output a /\ w_fs w !! output a = None) ->
  main a w
  = (Raise (IsADirectoryError (json_file a)),
     World (w_fs (prepared a w)) (w_log (prepared a w) ++ [EvOpenRead (json_file a)]))
  /\ w_fs (prepared a w) !! json_file a = Some Dir
  /\ exit_status (fst (main a w)) = 1%Z.
Proof.
  intros Hout Hdir.
  assert (w_fs (prepared a w) !! json_file a = Some Dir) as Hprep.
  { destruct Hdir as [Hdir|[Heq Hnone]].
    - by apply prepared_lookup_some.
    - rewrite Heq. unfold prepared. rewrite Hnone. simpl. by rewrite lookup_insert_eq. }
  assert (main a w
          = (Raise (IsADirectoryError (json_file a)),
             World (w_fs (prepared a w))
               (w_log (prepared a w) ++ [EvOpenRead (json_file a)]))) as H.
  { unfold main. rewrite prepare_run by done.
    unfold bind, load_json_data, try_except, open_json. by rewrite Hprep. }
  by rewrite H.
Qed.

Lemma policy_effect_row a b c d e policy r :
  r ∈ fst (policy_effect a b c d e policy) -> exists pd, r = policy_row a b c d e pd.
Proof.
  unfold policy_effect. destruct (truthy policy); [|by intros ?%elem_of_nil].
  destruct policy; try (by intros ?%elem_of_nil).
  intros ->%list_elem_of_singleton. eauto.
Qed.

Lemma edge_rows_from_channel l r :
  r ∈ fst (loop_effect edge_effect l) ->
  exists d pd, PDict d ∈ l
    /\ let channel_id := dict_get d "channel_id" (PStr "") in
       let node1_pub := dict_get d "node1_pub" (PStr "") in
       let node2_pub := dict_get d "node2_pub" (PStr "") in
       let edge1_id := PStr (py_str channel_id +:+ "_1") in
       let edge2_id := PStr (py_str channel_id +:+ "_2") in
       r = policy_row edge1_id channel_id edge2_id node1_pub node2_pub pd
       \/ r = policy_row edge2_id channel_id edge1_id node2_pub node1_pub pd.
Proof.
  induction l as [|x l IH]; simpl; [by intros ?%elem_of_nil|].
  intros [Hx|Hl]%then_effect_elem.
  - destruct x; try (by apply elem_of_nil in Hx).
    unfold edge_effect in Hx. cbv zeta in *.
    apply then_effect_elem in Hx as [H|H]; apply policy_effect_row in H as [pd ->];
      exists d, pd; (split; [apply list_elem_of_here|]); auto.
  - destruct (IH Hl) as (d & pd & Hd & H). exists d, pd.
    split; [by apply list_elem_of_further|done].
Qed.

(** X13: the edge table refers to the channel table.  For every list of
    channel objects, each edge row has a channel row with the same channel
    id whose two edge ids are the edge row's id and counter id and whose two
    endpoints are its from and to node, either in this order (the
    [node1_policy] direction) or both swapped (the [node2_policy]
    direction). *)
Theorem edge_rows_refer_to_channel_rows (cs : list pydict) (pe pc : string)
    (w w' : world) :
  exists erows crows : table,
    csv_at (snd (generate_edges_csv (PList (PDict <$> cs)) pe w)) pe
    = Some (edges_header :: erows)
    /\ csv_at (snd (generate_channels_csv (PList (PDict <$> cs)) pc w')) pc
       = Some (channels_header :: crows)
    /\ forall r, r ∈ erows ->
         exists c, c ∈ crows
           /\ r !! 1%nat = c !! 0%nat
           /\ ((r !! 0%nat = c !! 1%nat /\ r !! 2%nat = c !! 2%nat
                /\ r !! 3%nat = c !! 3%nat /\ r !! 4%nat = c !! 4%nat)
               \/ (r !! 0%nat = c !! 2%nat /\ r !! 2%nat = c !! 1%nat
                   /\ r !! 3%nat = c !! 4%nat /\ r !! 4%nat = c !! 3%nat)).
Proof.
  exists (fst (loop_effect edge_effect (PDict <$> cs))), (channel_row <$> cs).
  split; [|split].
  - rewrite generate_edges_csv_run. cbv zeta.
    destruct (snd (loop_effect edge_effect (PDict <$> cs)));
      unfold csv_at, log_event; simpl; by rewrite lookup_insert_eq.
  - rewrite channels_run_ok. unfold csv_at; simpl. by rewrite lookup_insert_eq.
  - intros r (d & pd & Hd & Hr)%edge_rows_from_channel.
    apply list_elem_of_fmap in Hd as (d' & [= <-] & Hd).
    exists (channel_row d). split; [by apply list_elem_of_fmap_2|].
    cbv zeta in Hr. destruct Hr as [-> | ->]; (split; [reflexivity|]).
    + left. by repeat split.
    + right. by repeat split.
Qed.

Lemma policy_effect_at_most_one a b c d e policy :
  length (fst (policy_effect a b c d e policy)) <= 1.
Proof.
  unfold policy_effect. destruct (truthy policy); [|simpl; lia].
  destruct policy; simpl; lia.
Qed.

Lemma then_effect_length s1 s2 :
  length (fst (then_effect s1 s2)) <= length (fst s1) + length (fst s2).
Proof. destruct s1 as [rs [e|]]; simpl; [lia|]. rewrite length_app. lia. Qed.

Lemma edge_effect_at_most_two x : length (fst (edge_effect x)) <= 2.
Proof.
  destruct x; simpl; try lia.
  etransitivity; [apply then_effect_length|].
  match goal with
  | |- length (fst ?s1) + length (fst ?s2) <= 2 =>
      assert (length (fst s1) <= 1) by apply policy_effect_at_most_one;
      assert (length (fst s2) <= 1) by apply policy_effect_at_most_one
  end.
  lia.
Qed.

(** X14: whatever the elements of the edges list and the outcome, the edge
    table never has more than two data rows per channel, so the number in
    the summary line is an upper bound on the rows written. *)
Theorem edges_csv_at_most_two_rows_per_channel (edges : list pyval) (p : string)
    (w : world) :
  exists rows : table,
    csv_at (snd (generate_edges_csv (PList edges) p w)) p = Some (edges_header :: rows)
    /\ length rows <= 2 * length edges.
Proof.
  exists (fst (loop_effect edge_effect edges)). split.
  - rewrite generate_edges_csv_run. cbv zeta.
    destruct (snd (loop_effect edge_effect edges));
      unfold csv_at, log_event; simpl; by rewrite lookup_insert_eq.
  - induction edges as [|x l IH]; [simpl; lia|].
    cbn [loop_effect length].
    pose proof (then_effect_length (edge_effect x) (loop_effect edge_effect l)).
    pose proof (edge_effect_at_most_two x). lia.
Qed.

(** A projector on any value: without items to run through it raises
    [TypeError] right after the header; with items it does what it does on
    the list of them. *)
Lemma projector_run_any p hdr body (summary : nat -> string) v w :
  (open_csv p ;;; writerow p hdr ;;; py_for v body ;;;
   n <- py_len v ;; print (summary n)) w
  = match py_items v with
    | None =>
        (Raise (TypeError v),
         World (<[p := CsvFile [hdr]]> (w_fs w)) (w_log w ++ [EvOpenWrite p]))
    | Some l =>
        (open_csv p ;;; writerow p hdr ;;; py_for (PList l) body ;;;
         n <- py_len (PList l) ;; print (summary n)) w
    end.
Proof.
  unfold py_for. rewrite py_iter_items, py_len_items.
  destruct (py_items v) as [l|]; [reflexivity|].
  unfold bind at 1. unfold open_csv at 1.
  unfold bind at 1. rewrite writerow_run.
  unfold bind, raise, add_rows. simpl.
  by rewrite lookup_insert_eq, insert_insert_eq.
Qed.

Lemma generate_nodes_csv_items v p w :
  generate_nodes_csv v p w
  = match py_items v with
    | None =>
        (Raise (TypeError v),
         World (<[p := CsvFile [nodes_header]]> (w_fs w)) (w_log w ++ [EvOpenWrite p]))
    | Some l => generate_nodes_csv (PList l) p w
    end.
Proof.
  apply (projector_run_any p nodes_header _
           (fun n => "Generated " +:+ p +:+ " with " +:+ str_nat n +:+ " nodes")).
Qed.

Lemma generate_channels_csv_items v p w :
  generate_channels_csv v p w
  = match py_items v with
    | None =>
        (Raise (TypeError v),
         World (<[p := CsvFile [channels_header]]> (w_fs w)) (w_log w ++ [EvOpenWrite p]))
    | Some l => generate_channels_csv (PList l) p w
    end.
Proof.
  apply (projector_run_any p channels_header _
           (fun n => "Generated " +:+ p +:+ " with " +:+ str_nat n +:+ " channels")).
Qed.

Lemma generate_edges_csv_items v p w :
  generate_edges_csv v p w
  = match py_items v with
    | None =>
        (Raise (TypeError v),
         World (<[p := CsvFile [edges_header]]> (w_fs w)) (w_log w ++ [EvOpenWrite p]))
    | Some l => generate_edges_csv (PList l) p w
    end.
Proof.
  apply (projector_run_any p edges_header _
           (fun n => "Generated " +:+ p +:+ " with " +:+ str_nat (n * 2) +:+ " edge policies")).
Qed.

(** X15: at a path made of a directory that exists (or of none, for the
    current directory) and a file name, where no directory lies: whatever
    the data (a list or not, with well-formed elements or not) and whether
    the projector returns or raises, the file it leaves behind is a table
    whose first row is its header; the rows after it depend on the data
    only, not on what the file held before.  (Where the directory is
    missing or the path is a directory, [open] raises and no table is
    written.) *)
Theorem projectors_always_write_the_header (v : pyval) (dir name : string) :
  plain_name name = true ->
  let p := path_join dir name in
  let writable (w : world) :=
    (dir = "" \/ w_fs w !! dir = Some Dir) /\ w_fs w !! p <> Some Dir in
  (exists rows, forall w, writable w ->
     csv_at (snd (generate_nodes_csv v p w)) p = Some (nodes_header :: rows))
  /\ (exists rows, forall w, writable w ->
        csv_at (snd (generate_channels_csv v p w)) p = Some (channels_header :: rows))
  /\ (exists rows, forall w, writable w ->
        csv_at (snd (generate_edges_csv v p w)) p = Some (edges_header :: rows)).
Proof.
  intros _ p writable. split; [|split].
  - exists (match py_items v with Some l => fst (loop_effect node_effect l) | None => [] end).
    intros w _. rewrite generate_nodes_csv_items. destruct (py_items v) as [l|].
    + rewrite generate_nodes_csv_run. cbv zeta.
      destruct (snd (loop_effect node_effect l));
        unfold csv_at, log_event; simpl; by rewrite lookup_insert_eq.
    + unfold csv_at; simpl. by rewrite lookup_insert_eq.
  - exists (match py_items v with
            | Some l => fst (loop_effect channel_effect l)
            | None => []
            end).
    intros w _. rewrite generate_channels_csv_items. destruct (py_items v) as [l|].
    + rewrite generate_channels_csv_run. cbv zeta.
      destruct (snd (loop_effect channel_effect l));
        unfold csv_at, log_event; simpl; by rewrite lookup_insert_eq.
    + unfold csv_at; simpl. by rewrite lookup_insert_eq.
  - exists (match py_items v with Some l => fst (loop_effect edge_effect l) | None => [] end).
    intros w _. rewrite generate_edges_csv_items. destruct (py_items v) as [l|].
    + rewrite generate_edges_csv_run. cbv zeta.
      destruct (snd (loop_effect edge_effect l));
        unfold csv_at, log_event; simpl; by rewrite lookup_insert_eq.
    + unfold csv_at; simpl. by rewrite lookup_insert_eq.
Qed.

(** X16: handed a value that cannot be iterated ([None], a number, a
    boolean), each projector has already created its file and written the
    header when the loop raises [TypeError]; the file holds the header
    only. *)
Theorem projectors_raise_on_non_iterable (v : pyval) (p : string) (w : world) :
  py_items v = None ->
  generate_nodes_csv v p w
  = (Raise (TypeError v),
     World (<[p := CsvFile [nodes_header]]> (w_fs w)) (w_log w ++ [EvOpenWrite p]))
  /\ generate_channels_csv v p w
     = (Raise (TypeError v),
        World (<[p := CsvFile [channels_header]]> (w_fs w)) (w_log w ++ [EvOpenWrite p]))
  /\ generate_edges_csv v p w
     = (Raise (TypeError v),
        World (<[p := CsvFile [edges_header]]> (w_fs w)) (w_log w ++ [EvOpenWrite p])).
Proof.
  intros Hv.
  rewrite generate_nodes_csv_items, generate_channels_csv_items, generate_edges_csv_items.
  by rewrite Hv.
Qed.

(** ** Counter edges and the policy guard, in full *)

Lemma policy_effect_source a b c d e policy r :
  r ∈ fst (policy_effect a b c d e policy) ->
  exists pd, policy = PDict pd /\ r = policy_row a b c d e pd.
Proof.
  unfold policy_effect. destruct (truthy policy); [|by intros ?%elem_of_nil].
  destruct policy; try (by intros ?%elem_of_nil).
  intros ->%list_elem_of_singleton. eauto.
Qed.

(** Every row the edge loop writes is the row of one policy of one of the
    channels. *)
Lemma edge_rows_sourced l r :
  r ∈ fst (loop_effect edge_effect l) ->
  exists d pd, PDict d ∈ l
    /\ let channel_id := dict_get d "channel_id" (PStr "") in
       let node1_pub := dict_get d "node1_pub" (PStr "") in
       let node2_pub := dict_get d "node2_pub" (PStr "") in
       let edge1_id := PStr (py_str channel_id +:+ "_1") in
       let edge2_id := PStr (py_str channel_id +:+ "_2") in
       (dict_get d "node1_policy" (PDict []) = PDict pd
        /\ r = policy_row edge1_id channel_id edge2_id node1_pub node2_pub pd)
       \/ (dict_get d "node2_policy" (PDict []) = PDict pd
           /\ r = policy_row edge2_id channel_id edge1_id node2_pub node1_pub pd).
Proof.
  induction l as [|x l IH]; simpl; [by intros ?%elem_of_nil|].
  intros [Hx|Hl]%then_effect_elem.
  - destruct x; try (by apply elem_of_nil in Hx).
    unfold edge_effect in Hx. cbv zeta in *.
    apply then_effect_elem in Hx as [H|H];
      apply policy_effect_source in H as (pd & Hpd & ->);
      exists d, pd; (split; [apply list_elem_of_here|]); auto.
  - destruct (IH Hl) as (d & pd & Hd & H). exists d, pd.
    split; [by apply list_elem_of_further|done].
Qed.

Lemma then_effect_fst_l s1 s2 (r : row) : r ∈ fst s1 -> r ∈ fst (then_effect s1 s2).
Proof.
  destruct s1 as [rs [e|]]; simpl; [done|]. intros H. apply elem_of_app. by left.
Qed.

Lemma then_effect_fst_r s1 s2 (r : row) :
  snd s1 = None -> r ∈ fst s2 -> r ∈ fst (then_effect s1 s2).
Proof.
  destruct s1 as [rs [e|]]; simpl; [done|]. intros _ H. apply elem_of_app. by right.
Qed.

(** The rows of a channel are written when no channel before it raises. *)
Lemma edge_rows_reached (cs : list pydict) x rest r :
  forallb channel_ok cs = true ->
  r ∈ fst (edge_effect x) ->
  r ∈ fst (loop_effect edge_effect ((PDict <$> cs) ++ x :: rest)).
Proof.
  intros Hok Hr. rewrite loop_effect_app, edges_loop_ok by done.
  apply then_effect_fst_r; [done|]. cbn [loop_effect].
  by apply then_effect_fst_l.
Qed.

(** C2: every row of the edge table is the row of one policy of one channel
    of the input.  The [node1_policy] row has the channel's [_1] id as id
    and its [_2] id as counter id, and goes from [node1_pub] to [node2_pub];
    the [node2_policy] row has the two ids and the two endpoints the other
    way round.  Both rows are in the table when both policies are non-empty
    objects (and no channel before raised), so each one's counter id is the
    id of the other.  Hence a row whose id is the counter id of another has
    that other row's id as its own counter id, and following the counter
    reference twice leads back to the first id. *)
Theorem counter_edge_is_sibling (edges : list pyval) (p : string) (w : world) :
  exists rows : table,
    csv_at (snd (generate_edges_csv (PList edges) p w)) p = Some (edges_header :: rows)
    /\ (forall r, r ∈ rows ->
         exists d pd, PDict d ∈ edges
           /\ let channel_id := dict_get d "channel_id" (PStr "") in
              let node1_pub := dict_get d "node1_pub" (PStr "") in
              let node2_pub := dict_get d "node2_pub" (PStr "") in
              let edge1_id := PStr (py_str channel_id +:+ "_1") in
              let edge2_id := PStr (py_str channel_id +:+ "_2") in
              (dict_get d "node1_policy" (PDict []) = PDict pd
               /\ r = [edge1_id; channel_id; edge2_id; node1_pub; node2_pub; PStr "";
                       dict_get pd "fee_base_msat" (PStr "0");
                       dict_get pd "fee_rate_milli_msat" (PStr "0");
                       dict_get pd "min_htlc" (PStr "0");
                       dict_get pd "time_lock_delta" (PStr "0")])
              \/ (dict_get d "node2_policy" (PDict []) = PDict pd
                  /\ r = [edge2_id; channel_id; edge1_id; node2_pub; node1_pub; PStr "";
                          dict_get pd "fee_base_msat" (PStr "0");
                          dict_get pd "fee_rate_milli_msat" (PStr "0");
                          dict_get pd "min_htlc" (PStr "0");
                          dict_get pd "time_lock_delta" (PStr "0")]))
    /\ (forall (cs : list pydict) d rest,
         edges = (PDict <$> cs) ++ PDict d :: rest ->
         forallb channel_ok cs = true ->
         let channel_id := dict_get d "channel_id" (PStr "") in
         let node1_pub := dict_get d "node1_pub" (PStr "") in
         let node2_pub := dict_get d "node2_pub" (PStr "") in
         let edge1_id := PStr (py_str channel_id +:+ "_1") in
         let edge2_id := PStr (py_str channel_id +:+ "_2") in
         let node1_policy := dict_get d "node1_policy" (PDict []) in
         let node2_policy := dict_get d "node2_policy" (PDict []) in
         (forall pd, node1_policy = PDict pd -> pd <> [] ->
            exists r, r ∈ rows
              /\ r !! 0%nat = Some edge1_id /\ r !! 1%nat = Some channel_id
              /\ r !! 2%nat = Some edge2_id
              /\ r !! 3%nat = Some node1_pub /\ r !! 4%nat = Some node2_pub)
         /\ (forall pd, truthy node1_policy = false \/ is_dict node1_policy = true ->
               node2_policy = PDict pd -> pd <> [] ->
               exists r, r ∈ rows
                 /\ r !! 0%nat = Some edge2_id /\ r !! 1%nat = Some channel_id
                 /\ r !! 2%nat = Some edge1_id
                 /\ r !! 3%nat = Some node2_pub /\ r !! 4%nat = Some node1_pub))
    /\ (forall r r', r ∈ rows -> r' ∈ rows ->
         r' !! 0%nat = r !! 2%nat -> r' !! 2%nat = r !! 0%nat)
    /\ (forall r r' r'', r ∈ rows -> r' ∈ rows -> r'' ∈ rows ->
         r' !! 0%nat = r !! 2%nat -> r'' !! 0%nat = r' !! 2%nat ->
         r'' !! 0%nat = r !! 0%nat).
Proof.
  exists (fst (loop_effect edge_effect edges)).
  assert (forall r r' : row,
            r ∈ fst (loop_effect edge_effect edges) ->
            r' ∈ fst (loop_effect edge_effect edges) ->
            r' !! 0%nat = r !! 2%nat -> r' !! 2%nat = r !! 0%nat) as Hback.
  { intros r r' (d & _ & _ & Hr)%edge_rows_directed (d' & _ & _ & Hr')%edge_rows_directed.
    cbv zeta in *.
    set (c := py_str (dict_get d "channel_id" (PStr ""))) in *.
    set (c' := py_str (dict_get d' "channel_id" (PStr ""))) in *.
    destruct Hr as [[-> ->]|[-> ->]], Hr' as [[-> ->]|[-> ->]]; intros [=H].
    - by apply edge_ids_differ in H.
    - apply edge_id_inj in H. by rewrite H.
    - apply edge_id_inj in H. by rewrite H.
    - symmetry in H. by apply edge_ids_differ in H. }
  split; [|split; [|split; [|split]]].
  - rewrite generate_edges_csv_run. cbv zeta.
    destruct (snd (loop_effect edge_effect edges));
      unfold csv_at, log_event; simpl; by rewrite lookup_insert_eq.
  - intros r Hr. by apply edge_rows_sourced.
  - intros cs d rest -> Hok. cbv zeta. split.
    + intros pd Hpd Hne. eexists. split.
      * apply edge_rows_reached; [done|]. unfold edge_effect. cbv zeta.
        apply then_effect_fst_l. rewrite Hpd, policy_effect_dict by done.
        apply list_elem_of_here.
      * by repeat split.
    + intros pd H1 Hpd Hne. eexists. split.
      * apply edge_rows_reached; [done|]. unfold edge_effect. cbv zeta.
        apply then_effect_fst_r.
        -- apply policy_effect_ok. unfold policy_ok.
           destruct H1 as [->|H1]; [by destruct (dict_get d "node1_policy" _)|].
           by destruct (dict_get d "node1_policy" _).
        -- rewrite Hpd, policy_effect_dict by done. apply list_elem_of_here.
      * by repeat split.
  - exact Hback.
  - intros r r' r'' Hr Hr' Hr'' H1 H2. rewrite H2. by apply Hback.
Qed.

(** What the guarded row of one policy does, by the kind of the value. *)
Lemma policy_effect_class a b c d e policy :
  (truthy policy = false /\ policy_effect a b c d e policy = ([], None))
  \/ (truthy policy = true /\ is_dict policy = true
      /\ exists pd, policy_effect a b c d e policy = ([policy_row a b c d e pd], None))
  \/ (truthy policy = true /\ is_dict policy = false
      /\ policy_effect a b c d e policy = ([], Some (AttributeError policy))).
Proof.
  unfold policy_effect. destruct (truthy policy) eqn:Ht; [|by left].
  right. destruct policy; first [by right | left; eauto].
Qed.

Lemma edge_effect_without_falsy_policy1 d :
  truthy (dict_get d "node1_policy" (PDict [])) = false ->
  edge_effect (PDict (del_key "node1_policy" d)) = edge_effect (PDict d).
Proof.
  intros Hf. unfold edge_effect. cbv zeta.
  rewrite dict_get_del_key_eq, !dict_get_del_key_ne by reflexivity.
  by rewrite (policy_effect_skip _ _ _ _ _ (dict_get d "node1_policy" (PDict [])) Hf).
Qed.

Lemma edge_effect_without_falsy_policy2 d :
  truthy (dict_get d "node2_policy" (PDict [])) = false ->
  edge_effect (PDict (del_key "node2_policy" d)) = edge_effect (PDict d).
Proof.
  intros Hf. unfold edge_effect. cbv zeta.
  rewrite dict_get_del_key_eq, !dict_get_del_key_ne by reflexivity.
  by rewrite (policy_effect_skip _ _ _ _ _ (dict_get d "node2_policy" (PDict [])) Hf).
Qed.

Ltac row_iff :=
  split;
  [ let x := fresh "x" in
    let Hx := fresh "Hx" in
    let Hid := fresh "Hid" in
    intros (x & Hx & Hid);
    repeat (apply elem_of_cons in Hx as [->|Hx];
            [try (injection Hid as Hid;
                  first [by apply edge_ids_differ in Hid
                        | symmetry in Hid; by apply edge_ids_differ in Hid])|]);
    try (by apply elem_of_nil in Hx);
    intuition (auto; congruence)
  | intros ?;
    first
      [ solve [eexists; split; [apply list_elem_of_here|reflexivity]]
      | solve [eexists; split;
               [apply list_elem_of_further, list_elem_of_here|reflexivity]]
      | solve [exfalso; intuition congruence] ] ].

(** C9, amended: the row of a direction is written exactly when the value
    under its policy key is truthy and an object (for [node2_policy],
    provided that [node1_policy] did not raise).  A key that holds an empty
    object, [None] or any other falsy value leaves the run of the loop body
    as it is without the key.  A truthy value that is not an object passes
    the guard and gets no row: the loop body raises [AttributeError] on
    it. *)
Theorem edge_row_iff_policy_object (d : pydict) (p : string) (w : world) (t : table) :
  w_fs w !! p = Some (CsvFile t) ->
  let channel_id := dict_get d "channel_id" (PStr "") in
  let node1_policy := dict_get d "node1_policy" (PDict []) in
  let node2_policy := dict_get d "node2_policy" (PDict []) in
  exists (rs : table) (r : res unit),
    edge_body p (PDict d) w = (r, World (<[p := CsvFile (t ++ rs)]> (w_fs w)) (w_log w))
    /\ ((exists x, x ∈ rs /\ x !! 0%nat = Some (PStr (py_str channel_id +:+ "_1")))
        <-> truthy node1_policy = true /\ is_dict node1_policy = true)
    /\ ((exists x, x ∈ rs /\ x !! 0%nat = Some (PStr (py_str channel_id +:+ "_2")))
        <-> (truthy node1_policy = false \/ is_dict node1_policy = true)
            /\ truthy node2_policy = true /\ is_dict node2_policy = true)
    /\ (truthy node1_policy = true -> is_dict node1_policy = false ->
        r = Raise (AttributeError node1_policy))
    /\ (truthy node1_policy = false \/ is_dict node1_policy = true ->
        truthy node2_policy = true -> is_dict node2_policy = false ->
        r = Raise (AttributeError node2_policy))
    /\ (truthy node1_policy = false \/ is_dict node1_policy = true ->
        truthy node2_policy = false \/ is_dict node2_policy = true ->
        r = Ret tt)
    /\ (truthy node1_policy = false ->
        edge_body p (PDict (del_key "node1_policy" d)) w = edge_body p (PDict d) w)
    /\ (truthy node2_policy = false ->
        edge_body p (PDict (del_key "node2_policy" d)) w = edge_body p (PDict d) w).
Proof.
  intros Hp channel_id node1_policy node2_policy.
  set (n1 := dict_get d "node1_pub" (PStr "")).
  set (n2 := dict_get d "node2_pub" (PStr "")).
  set (id1 := PStr (py_str channel_id +:+ "_1")).
  set (id2 := PStr (py_str channel_id +:+ "_2")).
  assert (edge_effect (PDict d)
          = then_effect (policy_effect id1 channel_id id2 n1 n2 node1_policy)
              (policy_effect id2 channel_id id1 n2 n1 node2_policy)) as Heff by reflexivity.
  exists (fst (edge_effect (PDict d))), (outcome (snd (edge_effect (PDict d)))).
  split.
  { rewrite (edge_body_writes p (PDict d) w). unfold add_rows. by rewrite Hp. }
  assert (forall k, truthy (dict_get d k (PDict [])) = false ->
            edge_effect (PDict (del_key k d)) = edge_effect (PDict d) ->
            edge_body p (PDict (del_key k d)) w = edge_body p (PDict d) w) as Hdel.
  { intros k _ Hk. by rewrite !(edge_body_writes p _ w), Hk. }
  rewrite Heff.
  destruct (policy_effect_class id1 channel_id id2 n1 n2 node1_policy)
    as [(Ht1 & ->)|[(Ht1 & Hd1 & pd1 & ->)|(Ht1 & Hd1 & ->)]];
  destruct (policy_effect_class id2 channel_id id1 n2 n1 node2_policy)
    as [(Ht2 & ->)|[(Ht2 & Hd2 & pd2 & ->)|(Ht2 & Hd2 & ->)]];
  cbn [then_effect fst snd app outcome];
  (split; [row_iff|]; split; [row_iff|];
   split; [intros; first [reflexivity | exfalso; intuition congruence]|];
   split; [intros; first [reflexivity | exfalso; intuition congruence]|];
   split; [intros; first [reflexivity | exfalso; intuition congruence]|];
   split; intros Hf; (apply Hdel; [exact Hf|]);
     first [by apply edge_effect_without_falsy_policy1
           | by apply edge_effect_without_falsy_policy2]).
Qed.

End Parser.

(** ** The theorems at the sample documents *)

(** The end-to-end example: one node, one channel with one policy. *)
Example end_to_end_example :
  main sample_repr sample_args (World {[ "graph.json" := JsonFile sample_document ]} [])
  = (Ret tt,
     World
       (<["out/edges_ln.csv" :=
            CsvFile [edges_header;
                     [PStr "C1_1"; PStr "C1"; PStr "C1_2"; PStr "A"; PStr "B"; PStr "";
                      PStr "1"; PStr "10"; PStr "1000"; PStr "40"]]]>
          (<["out/channels_ln.csv" :=
               CsvFile [channels_header;
                        [PStr "C1"; PStr "C1_1"; PStr "C1_2"; PStr "A"; PStr "B";
                         PStr "500"]]]>
             (<["out/nodes_ln.csv" := CsvFile [nodes_header; [PStr "A"]]]>
                (<["out" := Dir]> {[ "graph.json" := JsonFile sample_document ]}))))
       [EvMakedirs "out"; EvPrint "出力ディレクトリを作成しました: out";
        EvOpenRead "graph.json"; EvPrint "読み込み完了: 1 nodes, 1 edges";
        EvOpenWrite "out/nodes_ln.csv"; EvPrint "Generated out/nodes_ln.csv with 1 nodes";
        EvOpenWrite "out/channels_ln.csv";
        EvPrint "Generated out/channels_ln.csv with 1 channels";
        EvOpenWrite "out/edges_ln.csv";
        EvPrint "Generated out/edges_ln.csv with 2 edge policies";
        EvPrint "All CSV files generated successfully!"]).
Proof. vm_compute. reflexivity. Qed.

(** A document that lacks both keys but is not empty is processed: the three
    tables hold their headers only. *)
Example document_without_keys_example :
  main sample_repr sample_args
    (World {[ "graph.json" := JsonFile (PDict [("version", PInt 1)]) ]} [])
  = (Ret tt,
     World
       (<["out/edges_ln.csv" := CsvFile [edges_header]]>
          (<["out/channels_ln.csv" := CsvFile [channels_header]]>
             (<["out/nodes_ln.csv" := CsvFile [nodes_header]]>
                (<["out" := Dir]>
                   {[ "graph.json" := JsonFile (PDict [("version", PInt 1)]) ]}))))
       [EvMakedirs "out"; EvPrint "出力ディレクトリを作成しました: out";
        EvOpenRead "graph.json"; EvPrint "読み込み完了: 0 nodes, 0 edges";
        EvOpenWrite "out/nodes_ln.csv"; EvPrint "Generated out/nodes_ln.csv with 0 nodes";
        EvOpenWrite "out/channels_ln.csv";
        EvPrint "Generated out/channels_ln.csv with 0 channels";
        EvOpenWrite "out/edges_ln.csv";
        EvPrint "Generated out/edges_ln.csv with 0 edge policies";
        EvPrint "All CSV files generated successfully!"]).
Proof. vm_compute. reflexivity. Qed.

(** With the empty path as output directory, [os.makedirs] raises before the
    input is opened, and the interpreter exits with status 1. *)
Example empty_output_path_example :
  main sample_repr (Args "graph.json" "")
    (World {[ "graph.json" := JsonFile sample_document ]} [])
  = (Raise (FileNotFoundError ""),
     World {[ "graph.json" := JsonFile sample_document ]} []).
Proof. vm_compute. reflexivity. Qed.

(** A truthy policy that is not an object stops the edge projector with an
    [AttributeError]; the rows written before it stay in the file. *)
Example non_object_policy_example :
  generate_edges_csv sample_repr
    (PList [PDict channel_one_policy;
            PDict [("channel_id", PStr "C6"); ("node1_policy", PStr "none")]])
    "edges_ln.csv" empty_world
  = (Raise (AttributeError (PStr "none")),
     World
       {[ "edges_ln.csv" :=
            CsvFile [edges_header;
                     [PStr "C1_1"; PStr "C1"; PStr "C1_2"; PStr "A"; PStr "B"; PStr "";
                      PStr "1"; PStr "10"; PStr "1000"; PStr "40"]] ]}
       [EvOpenWrite "edges_ln.csv"]).
Proof. vm_compute. reflexivity. Qed.

(** C1 as stated fails: [channel_empty_policy] has exactly one policy
    present, the empty object under [node1_policy], and the edge projector
    emits no row for it. *)
Lemma present_empty_policy_emits_no_row :
  assoc "node1_policy" channel_empty_policy = Some (PDict [])
  /\ assoc "node2_policy" channel_empty_policy = None
  /\ generate_edges_csv sample_repr (PList [PDict channel_empty_policy]) "edges_ln.csv"
       empty_world
     = (Ret tt,
        World {[ "edges_ln.csv" := CsvFile [edges_header] ]}
          [EvOpenWrite "edges_ln.csv";
           EvPrint "Generated edges_ln.csv with 2 edge policies"]).
Proof. repeat split; vm_compute; reflexivity. Qed.

Lemma edges_csv_rows_per_truthy_policy_witness :
  forallb channel_ok [channel_no_policy; channel_one_policy; channel_two_policies] = true
  /\ exists emitted : list table,
       fst (generate_edges_csv sample_repr
              (PList (PDict <$> [channel_no_policy; channel_one_policy; channel_two_policies]))
              "edges_ln.csv" empty_world) = Ret tt
       /\ csv_at
            (snd (generate_edges_csv sample_repr
                    (PList (PDict <$> [channel_no_policy; channel_one_policy;
                                       channel_two_policies]))
                    "edges_ln.csv" empty_world))
            "edges_ln.csv"
          = Some (edges_header :: concat emitted)
       /\ emitted !! 0%nat = Some []
       /\ emitted !! 1%nat
          = Some [[PStr "C1_1"; PStr "C1"; PStr "C1_2"; PStr "A"; PStr "B"; PStr "";
                   PStr "1"; PStr "10"; PStr "1000"; PStr "40"]]
       /\ emitted !! 2%nat
          = Some [[PStr "C2_1"; PStr "C2"; PStr "C2_2"; PStr "A"; PStr "B"; PStr "";
                   PStr "1"; PStr "10"; PStr "1000"; PStr "40"];
                  [PStr "C2_2"; PStr "C2"; PStr "C2_1"; PStr "B"; PStr "A"; PStr "";
                   PStr "7"; PStr "0"; PStr "1"; PStr "0"]].
Proof.
  split; [reflexivity|].
  destruct (edges_csv_rows_per_truthy_policy sample_repr
              [channel_no_policy; channel_one_policy; channel_two_policies]
              "edges_ln.csv" empty_world eq_refl)
    as (emitted & Hret & Hcsv & _ & Hrows).
  exists emitted. split; [exact Hret|]. split; [exact Hcsv|]. split; [|split].
  - destruct (Hrows 0%nat channel_no_policy eq_refl) as (H & _). exact (H eq_refl eq_refl).
  - destruct (Hrows 1%nat channel_one_policy eq_refl) as (_ & H & _).
    refine (H sample_policy eq_refl _ eq_refl). discriminate.
  - destruct (Hrows 2%nat channel_two_policies eq_refl) as (_ & _ & _ & H).
    refine (H sample_policy _ eq_refl _ eq_refl _); discriminate.
Defined.

Lemma edges_summary_counts_two_per_channel_witness :
  forallb channel_ok [channel_no_policy; channel_one_policy] = true
  /\ exists rows : table,
       generate_edges_csv sample_repr (PList (PDict <$> [channel_no_policy; channel_one_policy]))
         "edges_ln.csv" empty_world
       = (Ret tt,
          World (<["edges_ln.csv" := CsvFile (edges_header :: rows)]> ∅)
            [EvOpenWrite "edges_ln.csv";
             EvPrint "Generated edges_ln.csv with 4 edge policies"])
       /\ length rows = 1.
Proof.
  split; [reflexivity|].
  exact (edges_summary_counts_two_per_channel sample_repr
           [channel_no_policy; channel_one_policy] "edges_ln.csv" empty_world eq_refl).
Defined.

Lemma falsy_document_reported_as_load_failure_witness :
  output sample_args <> ""
  /\ w_fs (World {[ "graph.json" := JsonFile (PDict []) ]} []) !! json_file sample_args
  = Some (JsonFile (PDict []))
  /\ truthy (PDict []) = false
  /\ main sample_repr sample_args (World {[ "graph.json" := JsonFile (PDict []) ]} [])
     = (Ret tt,
        World (<["out" := Dir]> {[ "graph.json" := JsonFile (PDict []) ]})
          [EvMakedirs "out"; EvPrint "出力ディレクトリを作成しました: out";
           EvOpenRead "graph.json"; EvPrint load_failed_line]).
Proof.
  assert (w_fs (World {[ "graph.json" := JsonFile (PDict []) ]} []) !! json_file sample_args
          = Some (JsonFile (PDict []))) as Hdoc by reflexivity.
  assert (output sample_args <> "") as Hout by discriminate.
  split; [exact Hout|]. split; [exact Hdoc|]. split; [reflexivity|].
  exact (falsy_document_reported_as_load_failure sample_repr sample_args
           (World {[ "graph.json" := JsonFile (PDict []) ]} []) (PDict [])
           Hout Hdoc eq_refl).
Defined.

(** C9 as stated fails: the [node1_policy] of [channel_text_policy] is a
    truthy value, a non-empty string, and the loop body writes no row for
    it; it raises. *)
Lemma truthy_text_policy_emits_no_row :
  truthy (dict_get channel_text_policy "node1_policy" (PDict [])) = true
  /\ edge_body sample_repr "edges_ln.csv" (PDict channel_text_policy)
       (World {[ "edges_ln.csv" := CsvFile [edges_header] ]} [])
     = (Raise (AttributeError (PStr "disabled")),
        World {[ "edges_ln.csv" := CsvFile [edges_header] ]} []).
Proof. split; vm_compute; reflexivity. Qed.

Lemma edge_row_iff_policy_object_witness :
  w_fs (World {[ "edges_ln.csv" := CsvFile [edges_header] ]} []) !! "edges_ln.csv"
  = Some (CsvFile [edges_header])
  /\ exists (rs : table) (r : res unit),
       edge_body sample_repr "edges_ln.csv" (PDict channel_string_policy)
         (World {[ "edges_ln.csv" := CsvFile [edges_header] ]} [])
       = (r,
          World (<["edges_ln.csv" := CsvFile ([edges_header] ++ rs)]>
                   {[ "edges_ln.csv" := CsvFile [edges_header] ]}) [])
       /\ (exists x, x ∈ rs /\ x !! 0%nat = Some (PStr "C7_1"))
       /\ ~ (exists x, x ∈ rs /\ x !! 0%nat = Some (PStr "C7_2"))
       /\ r = Raise (AttributeError (PStr "disabled")).
Proof.
  assert (w_fs (World {[ "edges_ln.csv" := CsvFile [edges_header] ]} []) !! "edges_ln.csv"
          = Some (CsvFile [edges_header])) as Hopen by reflexivity.
  split; [exact Hopen|].
  destruct (edge_row_iff_policy_object sample_repr channel_string_policy "edges_ln.csv"
              (World {[ "edges_ln.csv" := CsvFile [edges_header] ]} []) [edges_header]
              Hopen)
    as (rs & r & Hrun & H1 & H2 & _ & Hraise & _).
  exists rs, r. split; [exact Hrun|]. split; [|split].
  - apply H1. split; reflexivity.
  - intros H. apply H2 in H as (_ & _ & H). discriminate H.
  - apply Hraise; [right|..]; reflexivity.
Defined.





Lemma output_directory_created_before_load_witness :
  output sample_args <> ""
  /\ w_fs empty_world !! output sample_args = None
  /\ (exists evs,
        w_log (snd (main sample_repr sample_args empty_world))
        = [EvMakedirs "out"; EvPrint "出力ディレクトリを作成しました: out";
           EvOpenRead "graph.json"] ++ evs)
  /\ w_fs (snd (main sample_repr sample_args empty_world)) = <["out" := Dir]> ∅.
Proof.
  assert (w_fs empty_world !! output sample_args = None) as Hout by reflexivity.
  assert (output sample_args <> "") as Hnonempty by discriminate.
  split; [exact Hnonempty|]. split; [exact Hout|].
  destruct (output_directory_created_before_load sample_repr sample_args empty_world
              Hnonempty Hout)
    as (Hlog & Hleft).
  split; [exact Hlog|].
  refine (proj2 (Hleft _ (load_missing "graph.json") _)). discriminate.
Defined.

(** ** The further properties at the sample documents *)

Lemma main_converts_document_witness :
  output sample_args <> ""
  /\ (w_fs sample_world !! output sample_args = None
      \/ w_fs sample_world !! output sample_args = Some Dir)
  /\ no_file_above (w_fs sample_world) (output sample_args)
  /\ (forall t, t ∈ table_paths sample_args -> w_fs sample_world !! t <> Some Dir)
  /\ w_fs sample_world !! json_file sample_args = Some (JsonFile (PDict sample_graph))
  /\ sample_graph <> []
  /\ dict_get sample_graph "nodes" (PList []) = PList (PDict <$> [[("pub_key", PStr "A")]])
  /\ dict_get sample_graph "edges" (PList []) = PList (PDict <$> [channel_one_policy])
  /\ forallb channel_ok [channel_one_policy] = true
  /\ fst (main sample_repr sample_args sample_world) = Ret tt
  /\ csv_at (snd (main sample_repr sample_args sample_world)) "out/nodes_ln.csv"
     = Some [nodes_header; [PStr "A"]]
  /\ csv_at (snd (main sample_repr sample_args sample_world)) "out/channels_ln.csv"
     = Some [channels_header;
             [PStr "C1"; PStr "C1_1"; PStr "C1_2"; PStr "A"; PStr "B"; PStr "500"]]
  /\ csv_at (snd (main sample_repr sample_args sample_world)) "out/edges_ln.csv"
     = Some [edges_header;
             [PStr "C1_1"; PStr "C1"; PStr "C1_2"; PStr "A"; PStr "B"; PStr "";
              PStr "1"; PStr "10"; PStr "1000"; PStr "40"]].
Proof.
  assert (output sample_args <> "") as Hout by discriminate.
  assert (w_fs sample_world !! json_file sample_args = Some (JsonFile (PDict sample_graph)))
    as Hdoc by reflexivity.
  assert (sample_graph <> []) as Hd by discriminate.
  assert (w_fs sample_world !! output sample_args = None
          \/ w_fs sample_world !! output sample_args = Some Dir) as Hdir
    by (left; reflexivity).
  assert (no_file_above (w_fs sample_world) (output sample_args)) as Habove.
  { intros q n Hpre _ H. simpl in H.
    apply lookup_singleton_Some in H as [<- _]. discriminate Hpre. }
  assert (forall t, t ∈ table_paths sample_args -> w_fs sample_world !! t <> Some Dir)
    as Htab.
  { intros t _ H. simpl in H. apply lookup_singleton_Some in H as [_ H]. discriminate H. }
  destruct (main_converts_document sample_repr sample_args sample_world sample_graph
              [[("pub_key", PStr "A")]] [channel_one_policy]
              Hout Hdir Habove Htab Hdoc Hd eq_refl eq_refl eq_refl)
    as (Hret & Hn & Hc & He & _).
  repeat (split; [first [assumption | reflexivity]|]). exact He.
Defined.

Lemma rerun_leaves_files_unchanged_witness :
  output sample_args <> ""
  /\ (w_fs sample_world !! output sample_args = None
      \/ w_fs sample_world !! output sample_args = Some Dir)
  /\ no_file_above (w_fs sample_world) (output sample_args)
  /\ (forall t, t ∈ table_paths sample_args -> w_fs sample_world !! t <> Some Dir)
  /\ w_fs sample_world !! json_file sample_args = Some (JsonFile (PDict sample_graph))
  /\ sample_graph <> []
  /\ dict_get sample_graph "nodes" (PList []) = PList (PDict <$> [[("pub_key", PStr "A")]])
  /\ dict_get sample_graph "edges" (PList []) = PList (PDict <$> [channel_one_policy])
  /\ forallb channel_ok [channel_one_policy] = true
  /\ (json_file sample_args ∉ table_paths sample_args)
  /\ fst (main sample_repr sample_args (snd (main sample_repr sample_args sample_world)))
     = Ret tt
  /\ w_fs (snd (main sample_repr sample_args
                  (snd (main sample_repr sample_args sample_world))))
     = w_fs (snd (main sample_repr sample_args sample_world)).
Proof.
  assert (output sample_args <> "") as Hout by discriminate.
  assert (w_fs sample_world !! json_file sample_args = Some (JsonFile (PDict sample_graph)))
    as Hdoc by reflexivity.
  assert (sample_graph <> []) as Hd by discriminate.
  assert (json_file sample_args ∉ table_paths sample_args) as Hin.
  { intros H. repeat (apply elem_of_cons in H as [H|H]; [vm_compute in H; discriminate|]).
    by apply elem_of_nil in H. }
  assert (w_fs sample_world !! output sample_args = None
          \/ w_fs sample_world !! output sample_args = Some Dir) as Hdir
    by (left; reflexivity).
  assert (no_file_above (w_fs sample_world) (output sample_args)) as Habove.
  { intros q n Hpre _ H. simpl in H.
    apply lookup_singleton_Some in H as [<- _]. discriminate Hpre. }
  assert (forall t, t ∈ table_paths sample_args -> w_fs sample_world !! t <> Some Dir)
    as Htab.
  { intros t _ H. simpl in H. apply lookup_singleton_Some in H as [_ H]. discriminate H. }
  destruct (rerun_leaves_files_unchanged sample_repr sample_args sample_world sample_graph
              [[("pub_key", PStr "A")]] [channel_one_policy]
              Hout Hdir Habove Htab Hdoc Hd eq_refl eq_refl eq_refl Hin)
    as (Hret & Hfs).
  repeat (split; [first [assumption | reflexivity]|]). exact Hfs.
Defined.

Lemma main_leaves_other_paths_alone_witness :
  String.prefix "notes.txt" (output sample_args) = false
  /\ ("notes.txt" ∉ table_paths sample_args)
  /\ w_fs (snd (main sample_repr sample_args
                  (World (<["notes.txt" := BadFile "not JSON"]> (w_fs sample_world)) [])))
       !! "notes.txt"
     = w_fs (World (<["notes.txt" := BadFile "not JSON"]> (w_fs sample_world)) [])
         !! "notes.txt".
Proof.
  assert (String.prefix "notes.txt" (output sample_args) = false) as Hq by reflexivity.
  assert ("notes.txt" ∉ table_paths sample_args) as Hq'.
  { intros H. repeat (apply elem_of_cons in H as [H|H]; [vm_compute in H; discriminate|]).
    by apply elem_of_nil in H. }
  split; [exact Hq|]. split; [exact Hq'|].
  exact (main_leaves_other_paths_alone sample_repr sample_args _ "notes.txt" Hq Hq').
Defined.

Lemma existing_output_directory_is_reused_witness :
  output sample_args <> ""
  /\ is_Some (w_fs (World {[ "out" := Dir ]} []) !! output sample_args)
  /\ (exists evs,
        w_log (snd (main sample_repr sample_args (World {[ "out" := Dir ]} [])))
        = EvOpenRead "graph.json" :: evs
        /\ Forall (fun e => forall q, e <> EvMakedirs q) evs)
  /\ w_fs (snd (main sample_repr sample_args (World {[ "out" := Dir ]} []))) !! "out"
     = Some Dir.
Proof.
  assert (output sample_args <> "") as Hout by discriminate.
  assert (is_Some (w_fs (World {[ "out" := Dir ]} []) !! output sample_args)) as Hex
    by (exists Dir; reflexivity).
  split; [exact Hout|]. split; [exact Hex|].
  destruct (existing_output_directory_is_reused sample_repr sample_args
              (World {[ "out" := Dir ]} []) Hout Hex) as (Hlog & Hfs).
  split; [exact Hlog|]. etransitivity; [exact Hfs|reflexivity].
Defined.

Lemma nodes_csv_stops_at_non_object_witness :
  is_dict (PInt 7) = false
  /\ generate_nodes_csv
       (PList ((PDict <$> [[("pub_key", PStr "A")]]) ++ PInt 7 :: [PDict []]))
       "nodes_ln.csv" empty_world
     = (Raise (AttributeError (PInt 7)),
        World (<["nodes_ln.csv" := CsvFile [nodes_header; [PStr "A"]]]> ∅)
          [EvOpenWrite "nodes_ln.csv"]).
Proof.
  split; [reflexivity|].
  exact (nodes_csv_stops_at_non_object [[("pub_key", PStr "A")]] (PInt 7) [PDict []]
           "nodes_ln.csv" empty_world eq_refl).
Defined.

Lemma channels_csv_stops_at_non_object_witness :
  is_dict (PStr "C9") = false
  /\ generate_channels_csv sample_repr
       (PList ((PDict <$> [channel_no_policy]) ++ PStr "C9" :: []))
       "channels_ln.csv" empty_world
     = (Raise (AttributeError (PStr "C9")),
        World
          (<["channels_ln.csv" :=
               CsvFile [channels_header;
                        [PStr "C5"; PStr "C5_1"; PStr "C5_2"; PStr "A"; PStr "B";
                         PStr "0"]]]> ∅)
          [EvOpenWrite "channels_ln.csv"]).
Proof.
  split; [reflexivity|].
  exact (channels_csv_stops_at_non_object sample_repr [channel_no_policy] (PStr "C9") []
           "channels_ln.csv" empty_world eq_refl).
Defined.

Lemma edges_csv_stops_at_non_object_policy_witness :
  forallb channel_ok [channel_no_policy] = true
  /\ policy_ok (dict_get channel_string_policy "node1_policy" (PDict [])) = true
  /\ policy_ok (dict_get channel_string_policy "node2_policy" (PDict [])) = false
  /\ generate_edges_csv sample_repr
       (PList ((PDict <$> [channel_no_policy]) ++ PDict channel_string_policy :: []))
       "edges_ln.csv" empty_world
     = (Raise (AttributeError (PStr "disabled")),
        World
          (<["edges_ln.csv" :=
               CsvFile [edges_header;
                        [PStr "C7_1"; PStr "C7"; PStr "C7_2"; PStr "A"; PStr "B"; PStr "";
                         PStr "1"; PStr "10"; PStr "1000"; PStr "40"]]]> ∅)
          [EvOpenWrite "edges_ln.csv"]).
Proof.
  split; [reflexivity|]. split; [reflexivity|]. split; [reflexivity|].
  exact (proj2 (edges_csv_stops_at_non_object_policy sample_repr [channel_no_policy]
                  channel_string_policy [] "edges_ln.csv" empty_world eq_refl)
           eq_refl eq_refl).
Defined.

Lemma main_raises_on_non_object_document_witness :
  output sample_args <> ""
  /\ w_fs (World {[ "graph.json" := JsonFile (PList [PInt 1]) ]} []) !! json_file sample_args
     = Some (JsonFile (PList [PInt 1]))
  /\ truthy (PList [PInt 1]) = true
  /\ is_dict (PList [PInt 1]) = false
  /\ main sample_repr sample_args (World {[ "graph.json" := JsonFile (PList [PInt 1]) ]} [])
     = (Raise (AttributeError (PList [PInt 1])),
        World (<["out" := Dir]> {[ "graph.json" := JsonFile (PList [PInt 1]) ]})
          [EvMakedirs "out"; EvPrint "出力ディレクトリを作成しました: out";
           EvOpenRead "graph.json"]).
Proof.
  assert (output sample_args <> "") as Hout by discriminate.
  assert (w_fs (World {[ "graph.json" := JsonFile (PList [PInt 1]) ]} [])
            !! json_file sample_args
          = Some (JsonFile (PList [PInt 1]))) as Hdoc by reflexivity.
  split; [exact Hout|]. split; [exact Hdoc|]. split; [reflexivity|]. split; [reflexivity|].
  exact (proj1 (main_raises_on_non_object_document sample_repr sample_args _ _
                  Hout Hdoc eq_refl eq_refl)).
Defined.

Lemma main_raises_on_unsized_sections_witness :
  output sample_args <> ""
  /\ w_fs (World {[ "graph.json" := JsonFile (PDict [("nodes", PNone)]) ]} [])
       !! json_file sample_args
     = Some (JsonFile (PDict [("nodes", PNone)]))
  /\ [("nodes", PNone)] <> []
  /\ py_items (dict_get [("nodes", PNone)] "nodes" (PList [])) = None
  /\ main sample_repr sample_args
       (World {[ "graph.json" := JsonFile (PDict [("nodes", PNone)]) ]} [])
     = (Raise (TypeError PNone),
        World (<["out" := Dir]> {[ "graph.json" := JsonFile (PDict [("nodes", PNone)]) ]})
          [EvMakedirs "out"; EvPrint "出力ディレクトリを作成しました: out";
           EvOpenRead "graph.json"]).
Proof.
  assert (output sample_args <> "") as Hout by discriminate.
  assert (w_fs (World {[ "graph.json" := JsonFile (PDict [("nodes", PNone)]) ]} [])
            !! json_file sample_args
          = Some (JsonFile (PDict [("nodes", PNone)]))) as Hdoc by reflexivity.
  assert ([("nodes", PNone)] <> ([] : pydict)) as Hd by discriminate.
  split; [exact Hout|]. split; [exact Hdoc|]. split; [exact Hd|]. split; [reflexivity|].
  exact (proj1 (main_raises_on_unsized_sections sample_repr sample_args _ _ Hout Hdoc Hd)
           eq_refl).
Defined.

Lemma main_raises_on_directory_input_witness :
  output (Args "out" "out") <> ""
  /\ (w_fs empty_world !! json_file (Args "out" "out") = Some Dir
      \/ (json_file (Args "out" "out") = output (Args "out" "out")
          /\ w_fs empty_world !! output (Args "out" "out") = None))
  /\ main sample_repr (Args "out" "out") empty_world
     = (Raise (IsADirectoryError "out"),
        World (<["out" := Dir]> ∅)
          [EvMakedirs "out"; EvPrint "出力ディレクトリを作成しました: out";
           EvOpenRead "out"])
  /\ exit_status (fst (main sample_repr (Args "out" "out") empty_world)) = 1%Z.
Proof.
  assert (output (Args "out" "out") <> "") as Hout by discriminate.
  assert (w_fs empty_world !! json_file (Args "out" "out") = Some Dir
          \/ (json_file (Args "out" "out") = output (Args "out" "out")
              /\ w_fs empty_world !! output (Args "out" "out") = None)) as Hdir
    by (right; split; reflexivity).
  split; [exact Hout|]. split; [exact Hdir|].
  destruct (main_raises_on_directory_input sample_repr (Args "out" "out") empty_world
              Hout Hdir) as (Hmain & _ & Hexit).
  split; [exact Hmain|exact Hexit].
Defined.

Lemma projectors_raise_on_non_iterable_witness :
  py_items PNone = None
  /\ generate_nodes_csv PNone "nodes_ln.csv" empty_world
     = (Raise (TypeError PNone),
        World (<["nodes_ln.csv" := CsvFile [nodes_header]]> ∅)
          [EvOpenWrite "nodes_ln.csv"]).
Proof.
  split; [reflexivity|].
  exact (proj1 (projectors_raise_on_non_iterable sample_repr PNone "nodes_ln.csv"
                  empty_world eq_refl)).
Defined.


Lemma projectors_always_write_the_header_witness :
  plain_name "edges_ln.csv" = true
  /\ w_fs (World {[ "out" := Dir ]} []) !! "out" = Some Dir
  /\ w_fs (World {[ "out" := Dir ]} []) !! "out/edges_ln.csv" <> Some Dir
  /\ exists rows,
       csv_at (snd (generate_edges_csv sample_repr (PList [PDict channel_text_policy])
                      "out/edges_ln.csv" (World {[ "out" := Dir ]} [])))
         "out/edges_ln.csv"
       = Some (edges_header :: rows).
Proof.
  assert (plain_name "edges_ln.csv" = true) as Hname by reflexivity.
  assert (w_fs (World {[ "out" := Dir ]} []) !! "out" = Some Dir) as Hdir by reflexivity.
  assert (w_fs (World {[ "out" := Dir ]} []) !! "out/edges_ln.csv" <> Some Dir) as Hfree
    by (intros H; vm_compute in H; discriminate H).
  split; [exact Hname|]. split; [exact Hdir|]. split; [exact Hfree|].
  destruct (projectors_always_write_the_header sample_repr
              (PList [PDict channel_text_policy]) "out" "edges_ln.csv" Hname)
    as (_ & _ & rows & Hrows).
  exists rows. apply (Hrows (World {[ "out" := Dir ]} [])).
  split; [right; exact Hdir|exact Hfree].
Defined.
